(** * browserless_scraper.py: the scrape_with_browserless pipeline

    A shallow embedding of [src/browserless_scraper.py].  The function
    builds three local containers ([site_info], [risk_flags],
    [documents]), asks a remote rendering service for a page, and then
    mutates the containers while it parses the page.  Every [return],
    the ones in the two [except] clauses included, hands the very same
    containers to the caller, so the embedding threads them as a state
    through an exception monad and the handlers read the state as the
    failure left it.

    Python [str] is modelled by [string].  Character classes, case
    mapping and whitespace follow Python on the code points 0..127;
    characters from 128 on stand for code points that are caseless and
    are neither digits nor whitespace. *)

From Stdlib Require Import String Ascii List ZArith NArith Lia DecimalString DecimalNat DecimalFacts.
From stdpp Require Import gmap strings list fin_maps.
Local Open Scope string_scope.

(** ** Python strings *)

Module PyStr.

Definition code (c : ascii) : N := N_of_ascii c.

Definition between (lo hi c : ascii) : bool :=
  ((code lo <=? code c) && (code c <=? code hi))%N.

Definition is_digit (c : ascii) : bool := between "0" "9" c.
Definition is_upper (c : ascii) : bool := between "A" "Z" c.
Definition is_lower (c : ascii) : bool := between "a" "z" c.

(** [str.isspace] on one character: TAB..CR, FS..US and the blank.  The
    same class is what [\s] matches in a [str] pattern. *)
Definition is_space (c : ascii) : bool :=
  (((9 <=? code c) && (code c <=? 13)) || ((28 <=? code c) && (code c <=? 32)))%N.

Definition to_upper (c : ascii) : ascii :=
  if is_lower c then ascii_of_N (code c - 32) else c.
Definition to_lower (c : ascii) : ascii :=
  if is_upper c then ascii_of_N (code c + 32) else c.

Fixpoint smap (f : ascii -> ascii) (s : string) : string :=
  match s with
  | EmptyString => EmptyString
  | String c s' => String (f c) (smap f s')
  end.

(** [s.upper()] and [s.lower()] *)
Definition upper : string -> string := smap to_upper.
Definition lower : string -> string := smap to_lower.

Fixpoint lstrip (s : string) : string :=
  match s with
  | String c s' => if is_space c then lstrip s' else s
  | EmptyString => EmptyString
  end.

Fixpoint rstrip (s : string) : string :=
  match s with
  | String c s' =>
      match rstrip s' with
      | EmptyString => if is_space c then EmptyString else String c EmptyString
      | t => String c t
      end
  | EmptyString => EmptyString
  end.

(** [s.strip()] *)
Definition strip (s : string) : string := rstrip (lstrip s).

(** [s.startswith(p)] *)
Fixpoint startswith (p s : string) : bool :=
  match p, s with
  | EmptyString, _ => true
  | String a p', String b s' => Ascii.eqb a b && startswith p' s'
  | String _ _, EmptyString => false
  end.

(** [needle in hay] *)
Fixpoint contains (needle hay : string) : bool :=
  startswith needle hay ||
  match hay with
  | EmptyString => false
  | String _ h' => contains needle h'
  end.

(** [bool(s)]: a string is truthy when it is not empty. *)
Definition truthy (s : string) : bool :=
  match s with EmptyString => false | String _ _ => true end.

(** [s[:n]] *)
Definition str_take (n : nat) (s : string) : string := substring 0 n s.

(** [str(n)] for [n = len(...)] and for an [int] *)
Definition str_of_nat (n : nat) : string := NilZero.string_of_uint (Nat.to_uint n).
Definition str_of_Z (z : Z) : string := NilZero.string_of_int (Z.to_int z).

End PyStr.
Import PyStr.

(** ** The fragment of [re] the scraper uses

    A backtracking matcher in continuation-passing style: alternatives
    are tried left to right, a greedy repetition tries one more round
    before it tries to stop, a lazy one the other way round, as [re]
    does.  The matcher carries the number of characters consumed so far
    next to the text that is left.  A round of a repetition has to
    consume a character, so the length of the text bounds the number of
    rounds and [rep_loop] never runs out of fuel before the text does. *)

Module Re.

Inductive regex :=
| Empty
| Class (p : ascii -> bool)
| Cat (r1 r2 : regex)
| Or (r1 r2 : regex)
| Rep (greedy : bool) (r : regex)
| Grp (n : nat) (r : regex)
| Dollar.

(** Groups, most recently closed first. *)
Definition captures := list (nat * string).

(** What follows a match: the position reached, the text left there and
    the groups closed so far. *)
Definition cont := nat -> string -> captures -> option captures.

(** The rounds of a repetition of [step]; [k] is what follows it. *)
Fixpoint rep_loop (step : nat -> string -> captures -> cont -> option captures)
    (greedy : bool) (k : cont)
    (fuel : nat) (pos : nat) (s : string) (caps : captures) {struct fuel}
    : option captures :=
  match fuel with
  | O => k pos s caps
  | S fuel' =>
      let again := fun _ : unit =>
        step pos s caps (fun pos' s' caps' =>
          if (pos <? pos')%nat
          then rep_loop step greedy k fuel' pos' s' caps' else None) in
      if greedy
      then match again tt with Some c => Some c | None => k pos s caps end
      else match k pos s caps with Some c => Some c | None => again tt end
  end.

Fixpoint rmatch (r : regex) (pos : nat) (s : string) (caps : captures)
    (k : cont) {struct r} : option captures :=
  match r with
  | Empty => k pos s caps
  | Class p =>
      match s with
      | String c s' => if p c then k (S pos) s' caps else None
      | EmptyString => None
      end
  | Cat r1 r2 => rmatch r1 pos s caps (fun pos' s' caps' => rmatch r2 pos' s' caps' k)
  | Or r1 r2 =>
      match rmatch r1 pos s caps k with
      | Some c => Some c
      | None => rmatch r2 pos s caps k
      end
  | Rep greedy r1 => rep_loop (rmatch r1) greedy k (String.length s) pos s caps
  | Grp n r1 =>
      rmatch r1 pos s caps (fun pos' s' caps' =>
        k pos' s' ((n, substring 0 (pos' - pos) s) :: caps'))
  | Dollar =>
      (* end of the text, or just before a newline that ends it *)
      match s with
      | EmptyString => k pos s caps
      | String c EmptyString => if Ascii.eqb c "010" then k pos s caps else None
      | _ => None
      end
  end.

(** The match is complete: hand back its groups. *)
Definition accept : cont := fun _ _ caps => Some caps.

(** [re.search]: the leftmost position at which the pattern matches. *)
Fixpoint search (r : regex) (s : string) : option captures :=
  match rmatch r 0 s [] accept with
  | Some c => Some c
  | None =>
      match s with
      | EmptyString => None
      | String _ s' => search r s'
      end
  end.

(** [m.group(n)] *)
Fixpoint group (n : nat) (m : captures) : string :=
  match m with
  | [] => ""
  | (i, s) :: m' => if Nat.eqb i n then s else group n m'
  end.

Definition chr (c : ascii) : regex := Class (Ascii.eqb c).

Fixpoint lit (s : string) : regex :=
  match s with
  | EmptyString => Empty
  | String c s' => Cat (chr c) (lit s')
  end.

Definition star (r : regex) : regex := Rep true r.
Definition plus (r : regex) : regex := Cat r (Rep true r).
Definition plus_lazy (r : regex) : regex := Cat r (Rep false r).
Definition digit : regex := Class is_digit.
Definition space : regex := Class is_space.

End Re.
Import Re.

(** [(\d{2}-\d{2}-\d+)\s+([A-Z][A-Z0-9\s\'\-\.]+?)(?:\s*Activity Type|\s*$)] *)
Definition name_char (c : ascii) : bool :=
  is_upper c || is_digit c || is_space c
  || Ascii.eqb c "'" || Ascii.eqb c "-" || Ascii.eqb c ".".

Definition header_re : regex :=
  Cat (Grp 1 (Cat digit (Cat digit (Cat (chr "-")
             (Cat digit (Cat digit (Cat (chr "-") (plus digit))))))))
 (Cat (plus space)
 (Cat (Grp 2 (Cat (Class is_upper) (plus_lazy (Class name_char))))
      (Or (Cat (star space) (lit "Activity Type"))
          (Cat (star space) Dollar)))).

(** [download-document|docSeqNo] *)
Definition link_re : regex := Or (lit "download-document") (lit "docSeqNo").

(** [docSeqNo=(\d+)] *)
Definition seq_re : regex := Cat (lit "docSeqNo=") (Grp 1 (plus digit)).

(** ** Python values and the page

    What the function returns is a [dict] of dicts, a list, strings and
    [None]; [pyval] is the part of Python's values that can occur in it. *)

#[warnings="-register-all"]
Inductive pyval :=
| PNone
| PBool (b : bool)
| PInt (n : Z)
| PStr (s : string)
| PList (l : list pyval)
| PDict (d : gmap string pyval).

(** An element as [html.parser] hands it to the scraper: its name, the
    list its multi-valued [class] attribute is split into, and the other
    attributes. *)
Record Tag := {
  tag_name : string;
  tag_class : list string;
  tag_attrs : gmap string string
}.

(** The parsed page: its visible text, and its elements in document
    order. *)
Record Soup := {
  get_text : string;
  descendants : list Tag
}.

(** [tag.get(key, default)] *)
Definition tag_get (t : Tag) (key dflt : string) : string :=
  default dflt (tag_attrs t !! key).

(** [soup.find_all('input', {'class': 'form-control'})]: the elements
    named [input] that have [form-control] among their classes. *)
Definition is_form_control (t : Tag) : Prop :=
  tag_name t = "input" ∧ "form-control" ∈ tag_class t.

#[global] Instance is_form_control_dec t : Decision (is_form_control t).
Proof. unfold is_form_control. apply _. Defined.

Definition find_all_inputs (soup : Soup) : list Tag :=
  filter is_form_control (descendants soup).

(** [soup.find_all('a', href=re.compile(r'download-document|docSeqNo'))]:
    an anchor is kept when it has an [href] and the pattern is found in it. *)
Definition is_document_link (t : Tag) : Prop :=
  tag_name t = "a" ∧
  match tag_attrs t !! "href" with
  | Some href => is_Some (search link_re href)
  | None => False
  end.

#[global] Instance is_document_link_dec t : Decision (is_document_link t).
Proof. unfold is_document_link. destruct (tag_attrs t !! "href"); apply _. Defined.

Definition find_all_links (soup : Soup) : list Tag :=
  filter is_document_link (descendants soup).

Record Document := {
  doc_id : nat;
  download_url : string;
  category : string;
  name : string;
  comment : string
}.

Definition py_of_document (d : Document) : pyval :=
  PDict (<["id" := PInt (Z.of_nat (doc_id d))]>
        (<["download_url" := PStr (download_url d)]>
        (<["category" := PStr (category d)]>
        (<["name" := PStr (name d)]>
        (<["comment" := PStr (comment d)]> ∅))))).

(** ** The outside world *)

(** What can be raised inside the [try] block.  [Timeout] is
    [requests.Timeout] and [Error msg] any other exception that derives
    from [Exception], [msg] being its [str(e)].  [Interrupt name] is an
    exception that does not derive from [Exception]: [KeyboardInterrupt],
    [SystemExit], [GeneratorExit]. *)
Inductive exn :=
| Timeout
| Error (msg : string)
| Interrupt (name : string).

Record Request := {
  req_url : string;
  req_json : pyval;
  req_headers : gmap string string;
  req_timeout : Z
}.

Record Response := {
  status_code : Z;
  text : string
}.

(** Places of the [try] block at which a library call can fail once the
    response is in: building the soup and reading its text (lines
    71-72), the header search (75), collecting the inputs and their
    values (84-85), the keyword scan (116-126), collecting the anchors
    (129), the body of the anchor loop at its [k]-th round (130-144) and
    the summary (147-149). *)
Inductive point :=
| at_parse
| at_header
| at_inputs
| at_risk
| at_links
| at_link (k : nat)
| at_summary.

(** Everything the function does not decide itself: the environment of
    the process, the rendering service behind [requests.post], the HTML
    parser, and which library call fails with which exception. *)
Record World := {
  environ : gmap string string;
  requests_post : Request -> exn + Response;
  BeautifulSoup : string -> Soup;
  fault : point -> option exn
}.

(** Line 12: [os.environ.get("BROWSERLESS_API_KEY", "")]. *)
Definition BROWSERLESS_API_KEY (w : World) : string :=
  default "" (environ w !! "BROWSERLESS_API_KEY").

Definition BROWSERLESS_URL : string := "https://chrome.browserless.io/content".

(** ** State and exceptions *)

(** The three containers of lines 23-25, and the requests that went out. *)
Record State := {
  site_info : gmap string string;
  risk_flags : gmap string pyval;
  documents : list Document;
  sent : list Request
}.

Inductive Outcome (A : Type) :=
| Val (a : A)
| Raise (e : exn).
Arguments Val {A} a.
Arguments Raise {A} e.

Definition M (A : Type) : Type := State -> Outcome A * State.

#[global] Instance M_ret : MRet M := fun A a st => (Val a, st).
#[global] Instance M_bind : MBind M := fun A B f m st =>
  match m st with
  | (Val a, st') => f a st'
  | (Raise e, st') => (Raise e, st')
  end.

Definition get_state : M State := fun st => (Val st, st).
Definition modify (f : State -> State) : M unit := fun st => (Val tt, f st).
Definition raise {A} (e : exn) : M A := fun st => (Raise e, st).

(** [try: body / except ... as e: handler e] *)
Definition try_except {A} (body : M A) (handler : exn -> M A) : M A :=
  fun st =>
    match body st with
    | (Raise e, st') => handler e st'
    | r => r
    end.

(** A library call at point [p] that would give [v]. *)
Definition call {A} (w : World) (p : point) (v : A) : M A :=
  match fault w p with
  | Some e => raise e
  | None => mret v
  end.

Definition log_request (rq : Request) (st : State) : State :=
  {| site_info := site_info st; risk_flags := risk_flags st;
     documents := documents st; sent := sent st ++ [rq] |}.

(** [requests.post(...)], the one place the network is used. *)
Definition post (w : World) (rq : Request) : M Response :=
  fun st =>
    match requests_post w rq with
    | inl e => (Raise e, log_request rq st)
    | inr resp => (Val resp, log_request rq st)
    end.

(** ** The stages of the [try] block *)

Definition set_site_info (key value : string) (st : State) : State :=
  {| site_info := <[key := value]> (site_info st); risk_flags := risk_flags st;
     documents := documents st; sent := sent st |}.

Definition set_risk_flag (key : string) (value : pyval) (st : State) : State :=
  {| site_info := site_info st; risk_flags := <[key := value]> (risk_flags st);
     documents := documents st; sent := sent st |}.

Definition append_document (d : Document) (st : State) : State :=
  {| site_info := site_info st; risk_flags := risk_flags st;
     documents := documents st ++ [d]; sent := sent st |}.

(** Lines 79-81. *)
Definition header_step (header_match : option captures) (st : State) : State :=
  match header_match with
  | Some m =>
      set_site_info "location_name" (strip (group 2 m))
        (set_site_info "activity_number" (group 1 m) st)
  | None => st
  end.

(** Lines 88-106, in the order [field_map.items()] yields them. *)
Definition field_map : list (nat * string) :=
  [ (0, "activity_type"); (1, "status"); (2, "jurisdiction"); (3, "dnr_region");
    (4, "county"); (5, "location_name"); (6, "address"); (7, "municipality");
    (8, "plss_description"); (9, "latitude"); (10, "longitude"); (11, "acres");
    (12, "facility_id"); (13, "pecfa_number"); (14, "epa_id");
    (15, "start_date"); (16, "end_date") ]%nat.

(** Lines 109-113, one round of the loop. *)
Definition field_step (values : list string) (st : State) (item : nat * string) : State :=
  let '(idx, key) := item in
  match values !! idx with
  | Some v =>
      if truthy v then
        if String.eqb key "location_name" && bool_decide (is_Some (site_info st !! "location_name"))
        then st
        else set_site_info key v st
      else st
  | None => st
  end.

(** Lines 108-113. *)
Definition fields_step (values : list string) (st : State) : State :=
  fold_left (field_step values) field_map st.

(** Line 85. *)
Definition input_values (inputs : list Tag) : list string :=
  map (fun inp => strip (tag_get inp "value" "")) inputs.

(** Lines 116-126. *)
Definition heavy_metal_words : list string := ["arsenic"; "lead"; "mercury"; "chromium"].

Definition risk_step (page_text : string) (st : State) : State :=
  let status := upper (default "" (site_info st !! "status")) in
  let st := set_risk_flag "status_label"
              (PStr (if truthy status then status else "UNKNOWN")) st in
  let activity_type := upper (default "" (site_info st !! "activity_type")) in
  let st := if String.eqb activity_type "LUST" || contains "petroleum" (lower page_text)
            then set_risk_flag "petroleum" (PBool true) st else st in
  let st := if contains "pfas" (lower page_text)
            then set_risk_flag "pfas" (PBool true) st else st in
  if existsb (fun m => contains m (lower page_text)) heavy_metal_words
  then set_risk_flag "heavy_metals" (PBool true) st else st.

(** Lines 132-133. *)
Definition resolve (href : string) : string :=
  if negb (startswith "http" href) then "https://apps.dnr.wi.gov" ++ href else href.

(** Lines 135-136, [count] being [len(documents)]. *)
Definition sequence_id (count : nat) (href : string) : string :=
  match search seq_re href with
  | Some m => group 1 m
  | None => str_of_nat count
  end.

(** Lines 138-144, the dict that is appended. *)
Definition site_file (count : nat) (href : string) : Document :=
  {| doc_id := count;
     download_url := href;
     category := "Site File";
     name := "Site File Documentation (ID: " ++ sequence_id count href ++ ")";
     comment := "DNR site documentation" |}.

(** Lines 130-144, one round of the loop. *)
Definition link_step (link : Tag) (st : State) : State :=
  let href := tag_get link "href" "" in
  if truthy href then
    let href := resolve href in
    append_document (site_file (length (documents st)) href) st
  else st.

(** ** The record handed back *)

Definition result (st : State) (summary : string) (error : pyval) : pyval :=
  PDict (<["site_info" := PDict (PStr <$> site_info st)]>
        (<["risk_flags" := PDict (risk_flags st)]>
        (<["documents" := PList (py_of_document <$> documents st)]>
        (<["summary" := PStr summary]>
        (<["error" := error]> ∅))))).

(** Lines 147-149. *)
Definition summary_of (st : State) : string :=
  let location := default "Unknown" (site_info st !! "location_name") in
  let status := default "Unknown" (site_info st !! "status") in
  "Site: " ++ location ++ " - Status: " ++ status.

(** ** The function *)

Fixpoint for_links (w : World) (k : nat) (links : list Tag) : M unit :=
  match links with
  | [] => mret tt
  | link :: rest =>
      call w (at_link k) tt ≫= fun _ =>
      modify (link_step link) ≫= fun _ =>
      for_links w (S k) rest
  end.

(** Lines 70-157: what runs once a 200 response is in. *)
Definition parse_page (w : World) (html : string) : M pyval :=
  soup ← call w at_parse (BeautifulSoup w html);
  let page_text := get_text soup in
  header_match ← call w at_header (search header_re page_text);
  modify (header_step header_match);;
  inputs ← call w at_inputs (find_all_inputs soup);
  let values := input_values inputs in
  modify (fields_step values);;
  call w at_risk tt;;
  modify (risk_step page_text);;
  links ← call w at_links (find_all_links soup);
  for_links w 0 links;;
  call w at_summary tt;;
  st ← get_state;
  mret (result st (summary_of st) PNone).

Definition target_url (dsn : string) : string :=
  "https://apps.dnr.wi.gov/rrbotw/botw-activity-detail?dsn=" ++ dsn.

Definition payload (url : string) : pyval :=
  PDict (<["url" := PStr url]>
        (<["waitFor" := PInt 5000]>
        (<["gotoOptions" := PDict {["waitUntil" := PStr "networkidle2"]}]> ∅))).

(** Lines 54-59.  The [headers] dict of lines 46-49 is built and never
    used; the call passes its own. *)
Definition render_request (w : World) (dsn : string) : Request :=
  {| req_url := BROWSERLESS_URL ++ "?token=" ++ BROWSERLESS_API_KEY w;
     req_json := payload (target_url dsn);
     req_headers := {["Content-Type" := "application/json"]};
     req_timeout := 60 |}.

(** Lines 37-157, the body of the [try]. *)
Definition try_body (w : World) (dsn : string) : M pyval :=
  response ← post w (render_request w dsn);
  if negb (status_code response =? 200)%Z then
    st ← get_state;
    mret (result st ("Failed to render page: " ++ str_take 200 (text response))
            (PStr ("Browserless API error: " ++ str_of_Z (status_code response))))
  else
    parse_page w (text response).

(** Lines 159-174, the two [except] clauses.  [except requests.Timeout]
    and [except Exception] match the exceptions that derive from
    [Exception]; any other one matches neither clause and goes on to
    the caller. *)
Definition handler (e : exn) : M pyval :=
  match e with
  | Timeout =>
      st ← get_state;
      mret (result st "Page load timed out" (PStr "Request timed out"))
  | Error msg =>
      st ← get_state;
      mret (result st ("Error: " ++ msg) (PStr msg))
  | Interrupt name => raise (Interrupt name)
  end.

(** Lines 23-25. *)
Definition initial (dsn : string) : State :=
  {| site_info := {["dsn" := dsn]};
     risk_flags := {["status_label" := PStr "UNKNOWN"]};
     documents := [];
     sent := [] |}.

Definition run (w : World) (dsn : string) : Outcome pyval * State :=
  let st := initial dsn in
  if negb (truthy (BROWSERLESS_API_KEY w)) then
    (Val (result st "Browserless API key required for full scraping."
            (PStr "BROWSERLESS_API_KEY not set. Add it to environment variables.")), st)
  else
    try_except (try_body w dsn) handler st.

(** What the caller sees: a returned value or an exception. *)
Definition scrape_with_browserless (w : World) (dsn : string) : Outcome pyval :=
  fst (run w dsn).

(** The requests the call put on the network. *)
Definition requests_sent (w : World) (dsn : string) : list Request :=
  sent (snd (run w dsn)).

(** ** Reading a returned record *)

Definition field (key : string) (r : pyval) : option pyval :=
  match r with
  | PDict d => d !! key
  | _ => None
  end.

Definition keys (r : pyval) : gset string :=
  match r with
  | PDict d => dom d
  | _ => ∅
  end.

Definition result_keys : gset string :=
  {["site_info"; "risk_flags"; "documents"; "summary"; "error"]}.

(** ** Vocabulary for the statements *)

(** The longest prefix of characters in a class, and what follows it. *)
Fixpoint take_while (p : ascii -> bool) (s : string) : string :=
  match s with
  | String c s' => if p c then String c (take_while p s') else EmptyString
  | EmptyString => EmptyString
  end.

Fixpoint drop_while (p : ascii -> bool) (s : string) : string :=
  match s with
  | String c s' => if p c then drop_while p s' else s
  | EmptyString => EmptyString
  end.

(** Equal up to the case of the letters. *)
Definition caseless_eq (a b : string) : Prop := lower a = lower b.

(** What the anchor loop leaves behind when none of its rounds fails. *)
Definition collect_links (links : list Tag) (st : State) : State :=
  fold_left (fun st link => link_step link st) links st.

(** What lines 70-144 leave behind when no library call fails. *)
Definition extract (soup : Soup) (st : State) : State :=
  collect_links (find_all_links soup)
    (risk_step (get_text soup)
      (fields_step (input_values (find_all_inputs soup))
        (header_step (search header_re (get_text soup)) st))).

(** No library call fails on a page with [n_links] document anchors. *)
Definition clean (w : World) (n_links : nat) : Prop :=
  fault w at_parse = None ∧ fault w at_header = None ∧
  fault w at_inputs = None ∧ fault w at_risk = None ∧
  fault w at_links = None ∧
  (∀ k, (k < n_links)%nat → fault w (at_link k) = None) ∧
  fault w at_summary = None.

(** No library call fails once the header search is over. *)
Definition clean_after_header (w : World) : Prop :=
  fault w at_inputs = None ∧ fault w at_risk = None ∧
  fault w at_links = None ∧ (∀ k, fault w (at_link k) = None) ∧
  fault w at_summary = None.

(** The success path: a credential is configured, the service answers
    200, and nothing fails while the page is taken apart. *)
Definition success_path (w : World) (dsn : string) : Prop :=
  BROWSERLESS_API_KEY w ≠ "" ∧
  ∃ response,
    requests_post w (render_request w dsn) = inr response ∧
    status_code response = 200%Z ∧
    clean w (length (find_all_links (BeautifulSoup w (text response)))).

(** The world raises [e], from [requests.post] or from a library call. *)
Definition raised (w : World) (dsn : string) (e : exn) : Prop :=
  requests_post w (render_request w dsn) = inl e ∨ ∃ p, fault w p = Some e.

(** Nothing the world raises is outside [Exception]. *)
Definition only_exceptions (w : World) (dsn : string) : Prop :=
  ∀ name, ¬ raised w dsn (Interrupt name).

(** The call ends in an exception of the world that neither [except]
    clause matches. *)
Definition propagates (w : World) (dsn : string) : Prop :=
  ∃ name, scrape_with_browserless w dsn = Raise (Interrupt name) ∧
          raised w dsn (Interrupt name).

(** A Result record: the five keys, each with a value of its kind. *)
Definition well_formed (r : pyval) : Prop :=
  keys r = result_keys ∧
  (∃ si : gmap string string, field "site_info" r = Some (PDict (PStr <$> si))) ∧
  (∃ rf : gmap string pyval, field "risk_flags" r = Some (PDict rf)) ∧
  (∃ docs : list Document, field "documents" r = Some (PList (py_of_document <$> docs))) ∧
  (∃ summary, field "summary" r = Some (PStr summary)) ∧
  (field "error" r = Some PNone ∨ ∃ msg, field "error" r = Some (PStr msg)).

(** The containers as lines 23-25 create them. *)
Definition sentinel (dsn : string) (r : pyval) : Prop :=
  field "site_info" r = Some (PDict {["dsn" := PStr dsn]}) ∧
  field "risk_flags" r = Some (PDict {["status_label" := PStr "UNKNOWN"]}) ∧
  field "documents" r = Some (PList []).

(** What one round of the field loop makes of the entry of its key. *)
Definition write_field (values : list string) (idx : nat) (key : string)
    (old : option string) : option string :=
  match values !! idx with
  | Some v =>
      if truthy v then
        if String.eqb key "location_name" && bool_decide (is_Some old)
        then old else Some v
      else old
  | None => old
  end.

(** The states in which a failure of lines 70-149 can leave the
    containers: as they were, after the header was recorded, after the
    positional fields, or after the flags and some of the anchors. *)
Definition left_behind (soup : Soup) (st st' : State) : Prop :=
  let st1 := header_step (search header_re (get_text soup)) st in
  let st2 := fields_step (input_values (find_all_inputs soup)) st1 in
  let st3 := risk_step (get_text soup) st2 in
  st' = st ∨ st' = st1 ∨ st' = st2 ∨
  ∃ n, st' = collect_links (take n (find_all_links soup)) st3.

(** The field names in the order of their positions. *)
Definition field_names : list string :=
  [ "activity_type"; "status"; "jurisdiction"; "dnr_region"; "county";
    "location_name"; "address"; "municipality"; "plss_description";
    "latitude"; "longitude"; "acres"; "facility_id"; "pecfa_number";
    "epa_id"; "start_date"; "end_date" ].

(** An anchor the collector keeps. *)
Definition document_anchor (t : Tag) : Prop :=
  tag_name t = "a" ∧
  ∃ href, tag_attrs t !! "href" = Some href ∧
          (contains "download-document" href = true ∨ contains "docSeqNo" href = true).

(** [s] is the decimal numeral of [n]: read digit by digit it gives the
    digits of [n], without leading zeros. *)
Definition decimal (s : string) (n : nat) : Prop :=
  NilZero.uint_of_string s = Some (Nat.to_uint n).

(** The sequence identifier of the [count]-th document at [url]: the
    digits after a [docSeqNo=], or the count, written in decimal, when
    there are none. *)
Definition sequence_spec (count : nat) (url seq : string) : Prop :=
  (∃ pre d t, url = pre ++ "docSeqNo=" ++ String d t ∧ is_digit d = true ∧
              seq = String d (take_while is_digit t))
  ∨ ((∀ pre d t, url = pre ++ "docSeqNo=" ++ String d t → is_digit d = false) ∧
     decimal seq count).

(** A relative reference in the sense of RFC 3986: one that does not
    start with a scheme, that is with a letter, then letters, digits,
    [+], [-] or [.], then a colon. *)
Definition is_letter (c : ascii) : bool := is_upper c || is_lower c.

Definition scheme_char (c : ascii) : bool :=
  is_letter c || is_digit c || Ascii.eqb c "+" || Ascii.eqb c "-" || Ascii.eqb c ".".

Definition has_scheme (s : string) : bool :=
  match s with
  | String c s' =>
      is_letter c &&
      match drop_while scheme_char s' with
      | String c' _ => Ascii.eqb c' ":"
      | EmptyString => false
      end
  | EmptyString => false
  end.

Definition is_relative_url (s : string) : Prop := has_scheme s = false.

(** ** Sample pages and worlds *)

Definition input_tag (value : string) : Tag :=
  {| tag_name := "input"; tag_class := ["form-control"];
     tag_attrs := {["value" := value]} |}.

Definition anchor_tag (href : string) : Tag :=
  {| tag_name := "a"; tag_class := []; tag_attrs := {["href" := href]} |}.

Definition no_fault : point -> option exn := fun _ => None.

Definition serve (page : Soup) (faults : point -> option exn) : World :=
  {| environ := {["BROWSERLESS_API_KEY" := "token"]};
     requests_post := fun _ => inr {| status_code := 200; text := "<html></html>" |};
     BeautifulSoup := fun _ => page;
     fault := faults |}.

(** A page with the sample header, seventeen inputs and two anchors. *)
Definition sample_page : Soup :=
  {| get_text := "27-11-47 EXAMPLE SITE NAME Activity Type ...";
     descendants :=
       [ input_tag "LUST"; input_tag " OPEN "; input_tag "DNR RR"; input_tag "SOUTHEAST";
         input_tag "MILWAUKEE"; input_tag "OTHER NAME"; input_tag "1 MAIN ST";
         input_tag "MILWAUKEE"; input_tag ""; input_tag "43.0"; input_tag "-87.9";
         input_tag "2.5"; input_tag "241000010"; input_tag ""; input_tag "";
         input_tag "1990-01-01"; input_tag "";
         anchor_tag "/document?docSeqNo=4821";
         anchor_tag "https://apps.dnr.wi.gov/rrbotw/download-document/7";
         anchor_tag "/help" ] |}.

Definition sample_world : World := serve sample_page no_fault.

(** A page whose text has none of the keywords, for a LUST activity. *)
Definition lust_page : Soup :=
  {| get_text := "Site details";
     descendants := [input_tag "LUST"; input_tag "OPEN"] |}.

Definition lust_world : World := serve lust_page no_fault.

(** The sample page on a day the parser gives up once the header is
    recorded. *)
Definition late_failure : point -> option exn :=
  fun p => match p with at_inputs => Some (Error "library failure") | _ => None end.

Definition broken_world : World := serve sample_page late_failure.

Definition keyless_world : World :=
  {| environ := ∅;
     requests_post := fun _ => inr {| status_code := 200; text := "<html></html>" |};
     BeautifulSoup := fun _ => sample_page;
     fault := no_fault |}.

Definition timeout_world : World :=
  {| environ := {["BROWSERLESS_API_KEY" := "token"]};
     requests_post := fun _ => inl Timeout;
     BeautifulSoup := fun _ => sample_page;
     fault := no_fault |}.

(** The sample page again, fetched with another credential. *)
Definition other_world : World :=
  {| environ := {["BROWSERLESS_API_KEY" := "another-token"]};
     requests_post := fun _ => inr {| status_code := 200; text := "<html></html>" |};
     BeautifulSoup := fun _ => sample_page;
     fault := no_fault |}.

(** ** Vocabulary for the further properties *)

Fixpoint all_chars (p : ascii -> bool) (s : string) : bool :=
  match s with
  | String c s' => p c && all_chars p s'
  | EmptyString => true
  end.

(** The containers after the request went out and before the page is
    looked at. *)
Definition requested (w : World) (dsn : string) : State :=
  log_request (render_request w dsn) (initial dsn).

(** The states in which a call can hand back its containers: untouched
    without a credential; otherwise as the request left them, or as the
    stages run on a 200 response left them. *)
Definition reachable (w : World) (dsn : string) (st : State) : Prop :=
  (BROWSERLESS_API_KEY w = "" ∧ st = initial dsn) ∨
  (BROWSERLESS_API_KEY w ≠ "" ∧
   (st = requested w dsn ∨
    ∃ response,
      requests_post w (render_request w dsn) = inr response ∧
      status_code response = 200%Z ∧
      left_behind (BeautifulSoup w (text response)) (requested w dsn) st)).

(** ** More sample worlds *)

(** The service is down. *)
Definition unavailable_world : World :=
  {| environ := {["BROWSERLESS_API_KEY" := "token"]};
     requests_post := fun _ => inr {| status_code := 503; text := "Service Unavailable" |};
     BeautifulSoup := fun _ => sample_page;
     fault := no_fault |}.

(** The connection is refused. *)
Definition refused_world : World :=
  {| environ := {["BROWSERLESS_API_KEY" := "token"]};
     requests_post := fun _ => inl (Error "Connection refused");
     BeautifulSoup := fun _ => sample_page;
     fault := no_fault |}.

(** Two digits, a dash, two digits, a dash and one digit or more. *)
Definition activity_number_shape (s : string) : Prop :=
  ∃ a b c d e t,
    s = String a (String b (String "-" (String c (String d (String "-" (String e t)))))) ∧
    is_digit a = true ∧ is_digit b = true ∧ is_digit c = true ∧
    is_digit d = true ∧ is_digit e = true ∧ all_chars is_digit t = true.

(** A capital letter and then one or more of: capital letters, digits,
    whitespace, apostrophe, dash, full stop. *)
Definition header_name_shape (s : string) : Prop :=
  ∃ u n t,
    s = String u (String n t) ∧
    is_upper u = true ∧ name_char n = true ∧ all_chars name_char t = true.

(** A well-formed RiskFlags mapping: a non-empty label without
    lower-case letters, and otherwise only the three flags, set to
    [True]. *)
Definition risk_flags_ok (rf : gmap string pyval) : Prop :=
  (∃ label, rf !! "status_label" = Some (PStr label) ∧ label ≠ "" ∧
            all_chars (fun c => negb (is_lower c)) label = true) ∧
  ∀ key v, rf !! key = Some v →
           key = "status_label" ∨
           (key ∈ ["petroleum"; "pfas"; "heavy_metals"] ∧ v = PBool true).

(** A well-formed Document at position [k] of the list. *)
Definition document_ok (k : nat) (d : Document) : Prop :=
  doc_id d = k ∧
  category d = "Site File" ∧
  comment d = "DNR site documentation" ∧
  startswith "http" (download_url d) = true ∧
  ∃ seq, seq ≠ "" ∧ name d = "Site File Documentation (ID: " ++ seq ++ ")".

(** The same for the dict that stands for a Document in the Result. *)
Definition document_dict_ok (k : nat) (v : pyval) : Prop :=
  keys v = {["id"; "download_url"; "category"; "name"; "comment"]} ∧
  field "id" v = Some (PInt (Z.of_nat k)) ∧
  field "category" v = Some (PStr "Site File") ∧
  field "comment" v = Some (PStr "DNR site documentation") ∧
  (∃ url, field "download_url" v = Some (PStr url) ∧ startswith "http" url = true) ∧
  ∃ seq, seq ≠ "" ∧
         field "name" v = Some (PStr ("Site File Documentation (ID: " ++ seq ++ ")")).

(** The records of all the anchors of a page that are kept. *)
Definition all_documents (soup : Soup) : list Document :=
  imap (fun k link => site_file k (resolve (tag_get link "href" "")))
       (find_all_links soup).

(** The keys [site_info] can have. *)
Definition site_info_keys : gset string :=
  {["dsn"; "activity_number"]} ∪ list_to_set field_names.

(** The sample page with one more input after the seventeenth. *)
Definition longer_page : Soup :=
  {| get_text := get_text sample_page;
     descendants := (descendants sample_page ++ [input_tag "NOT A FIELD"])%list |}.

Definition longer_world : World := serve longer_page no_fault.

(** A page with nothing on it. *)
Definition empty_page : Soup := {| get_text := ""; descendants := [] |}.

Definition empty_world : World := serve empty_page no_fault.

(** The sample page on a day the second round of the anchor loop fails. *)
Definition second_link_fails : point -> option exn :=
  fun p => match p with at_link 1 => Some (Error "library failure") | _ => None end.

Definition half_collected_world : World := serve sample_page second_link_fails.

(** A page that mentions a metal with a capital letter. *)
Definition metal_page : Soup :=
  {| get_text := "Lead contamination detected"; descendants := [] |}.

Definition metal_world : World := serve metal_page no_fault.

(** The user presses Ctrl-C while the request is under way. *)
Definition interrupted_world : World :=
  {| environ := {["BROWSERLESS_API_KEY" := "token"]};
     requests_post := fun _ => inl (Interrupt "KeyboardInterrupt");
     BeautifulSoup := fun _ => sample_page;
     fault := no_fault |}.

(** A page whose one anchor has a relative link that begins with the
    letters http. *)
Definition relative_page : Soup :=
  {| get_text := "";
     descendants := [anchor_tag "httpdocs/download-document/7"] |}.

Definition relative_world : World := serve relative_page no_fault.

(** * Properties *)

(** ** Strings *)

Section string_facts.

Lemma truthy_true s : truthy s = true ↔ s ≠ "".
Proof. destruct s; simpl; split; congruence. Qed.

Lemma smap_nil f s : smap f s = "" ↔ s = "".
Proof. destruct s; simpl; split; congruence. Qed.

Lemma to_lower_upper c : to_lower (to_upper c) = to_lower c.
Proof. destruct c as [[] [] [] [] [] [] [] []]; reflexivity. Qed.

Lemma to_upper_lower c : to_upper (to_lower c) = to_upper c.
Proof. destruct c as [[] [] [] [] [] [] [] []]; reflexivity. Qed.

Lemma lower_upper s : lower (upper s) = lower s.
Proof.
  induction s as [|c s IH]; [done|].
  unfold lower, upper in *. simpl. by rewrite to_lower_upper, IH.
Qed.

Lemma upper_lower s : upper (lower s) = upper s.
Proof.
  induction s as [|c s IH]; [done|].
  unfold lower, upper in *. simpl. by rewrite to_upper_lower, IH.
Qed.

(** Comparing the upper-cased strings, as the source does, is comparing
    up to case. *)
Lemma upper_eq_caseless a b : upper a = upper b ↔ caseless_eq a b.
Proof.
  unfold caseless_eq. split; intros H.
  - by rewrite <- (lower_upper a), H, lower_upper.
  - by rewrite <- (upper_lower a), H, upper_lower.
Qed.

Lemma startswith_app p t : startswith p (p ++ t) = true.
Proof.
  induction p as [|c p IH]; [done|]. simpl. by rewrite Ascii.eqb_refl.
Qed.

Lemma startswith_spec p s : startswith p s = true ↔ ∃ t, s = p ++ t.
Proof.
  split.
  - revert s. induction p as [|c p IH]; intros s H; [by exists s|].
    destruct s as [|d s]; [done|]. simpl in H.
    apply andb_true_iff in H as [Hc Hp]. apply Ascii.eqb_eq in Hc as ->.
    destruct (IH _ Hp) as [t ->]. by exists t.
  - intros [t ->]. apply startswith_app.
Qed.

Lemma contains_spec n h : contains n h = true ↔ ∃ a b, h = a ++ n ++ b.
Proof.
  split.
  - induction h as [|c h IH]; simpl; intros H.
    + rewrite orb_false_r in H. apply startswith_spec in H as [t Ht].
      by exists "", t.
    + apply orb_true_iff in H as [H|H].
      * apply startswith_spec in H as [t Ht]. by exists "", t.
      * destruct (IH H) as (a & b & ->). by exists (String c a), b.
  - intros (a & b & ->). induction a as [|c a IH].
    + change ("" ++ n ++ b) with (n ++ b).
      pose proof (startswith_app n b) as H.
      destruct (n ++ b); simpl; by rewrite H.
    + change (String c a ++ n ++ b) with (String c (a ++ n ++ b)).
      simpl. rewrite IH. apply orb_true_r.
Qed.

Lemma take_drop_while p s : take_while p s ++ drop_while p s = s.
Proof.
  induction s as [|c s IH]; [done|]. simpl.
  destruct (p c); [|done].
  change (String c (take_while p s) ++ drop_while p s)
    with (String c (take_while p s ++ drop_while p s)).
  by rewrite IH.
Qed.

Lemma substring_app a b : substring 0 (String.length a) (a ++ b) = a.
Proof.
  induction a as [|c a IH].
  - by destruct b.
  - change (String c a ++ b) with (String c (a ++ b)). simpl. by rewrite IH.
Qed.

End string_facts.

(** ** The patterns *)

Section regex_facts.

Lemma search_unfold r s :
  search r s = match rmatch r 0 s [] accept with
               | Some c => Some c
               | None => match s with
                         | EmptyString => None
                         | String _ s' => search r s'
                         end
               end.
Proof. by destruct s. Qed.

Lemma rmatch_lit_app l pos t caps k :
  rmatch (lit l) pos (l ++ t) caps k = k (pos + String.length l)%nat t caps.
Proof.
  revert pos. induction l as [|c l IH]; intros pos.
  - simpl. by rewrite Nat.add_0_r.
  - change (String c l ++ t) with (String c (l ++ t)). simpl.
    rewrite Ascii.eqb_refl, IH. f_equal. lia.
Qed.

Lemma rmatch_lit_fail l pos s caps k :
  startswith l s = false → rmatch (lit l) pos s caps k = None.
Proof.
  revert pos s. induction l as [|c l IH]; intros pos s H; [done|].
  destruct s as [|d s]; [done|]. simpl in *.
  destruct (Ascii.eqb c d); [|done]. by apply IH.
Qed.

Lemma rmatch_lit l pos s caps k :
  is_Some (rmatch (lit l) pos s caps k) →
  ∃ t, s = l ++ t ∧ rmatch (lit l) pos s caps k = k (pos + String.length l)%nat t caps.
Proof.
  intros H. destruct (startswith l s) eqn:E.
  - apply startswith_spec in E as [t ->]. exists t. by rewrite rmatch_lit_app.
  - rewrite rmatch_lit_fail in H by done. by destruct H.
Qed.

(** The anchor pattern is found in a text exactly when one of its two
    words occurs in it. *)
Lemma search_link_re s :
  is_Some (search link_re s) ↔
  contains "download-document" s = true ∨ contains "docSeqNo" s = true.
Proof.
  assert (Hhead : ∀ t, is_Some (rmatch link_re 0 t [] accept) ↔
            startswith "download-document" t = true ∨ startswith "docSeqNo" t = true).
  { intros t. unfold link_re.
    change (rmatch (Or ?a ?b) 0 t [] accept)
      with (match rmatch a 0 t [] accept with
            | Some c => Some c | None => rmatch b 0 t [] accept end).
    destruct (startswith "download-document" t) eqn:E1.
    - apply startswith_spec in E1 as [u ->]. rewrite rmatch_lit_app. by split; eauto.
    - rewrite (rmatch_lit_fail _ _ _ _ _ E1).
      destruct (startswith "docSeqNo" t) eqn:E2.
      + apply startswith_spec in E2 as [u ->]. rewrite rmatch_lit_app. by split; eauto.
      + rewrite (rmatch_lit_fail _ _ _ _ _ E2). split; [by intros []|by intros [|]]. }
  induction s as [|c s IH].
  - rewrite search_unfold. specialize (Hhead "").
    destruct (rmatch link_re 0 "" [] accept) eqn:E.
    + destruct Hhead as [Hh _]. destruct (Hh (mk_is_Some _ _ eq_refl)); done.
    + split; [by intros []|]. intros [H|H]; discriminate H.
  - rewrite search_unfold. specialize (Hhead (String c s)).
    cbn [contains]. rewrite !orb_true_iff.
    destruct (rmatch link_re 0 (String c s) [] accept) eqn:E.
    + split; [|by eauto]. intros _.
      destruct Hhead as [Hh _]. destruct (Hh (mk_is_Some _ _ eq_refl)); eauto.
    + rewrite IH. split; [tauto|].
      intros [[H|H]|[H|H]]; eauto.
      * destruct Hhead as [_ Hh]. destruct Hh as [? Hh]; [by left|done].
      * destruct Hhead as [_ Hh]. destruct Hh as [? Hh]; [by right|done].
Qed.

Lemma search_link_re_nonempty s : is_Some (search link_re s) → s ≠ "".
Proof. intros H ->. vm_compute in H. by destruct H. Qed.

(** A greedy run over one class, followed by something that cannot
    fail, takes every character of the class there is. *)
Lemma rep_class_greedy p k fuel pos s caps :
  (∀ pos' s' caps', is_Some (k pos' s' caps')) →
  (String.length s <= fuel)%nat →
  rep_loop (rmatch (Class p)) true k fuel pos s caps
  = k (pos + String.length (take_while p s))%nat (drop_while p s) caps.
Proof.
  intros Hk. revert pos s. induction fuel as [|fuel IH]; intros pos s Hlen.
  - destruct s; [|simpl in Hlen; lia]. simpl. by rewrite Nat.add_0_r.
  - destruct s as [|c s]; simpl.
    + by rewrite Nat.add_0_r.
    + destruct (p c) eqn:E; simpl.
      * assert ((pos <? S pos)%nat = true) as -> by (apply Nat.ltb_lt; lia).
        simpl in Hlen. rewrite IH by lia.
        replace (S pos + String.length (take_while p s))%nat
          with (pos + S (String.length (take_while p s)))%nat by lia.
        destruct (Hk (pos + S (String.length (take_while p s)))%nat
                     (drop_while p s) caps) as [x ->]. done.
      * by rewrite Nat.add_0_r.
Qed.

Lemma rmatch_seq_re_hit d t :
  is_digit d = true →
  rmatch seq_re 0 ("docSeqNo=" ++ String d t) [] accept
  = Some [(1%nat, String d (take_while is_digit t))].
Proof.
  intros Hd. unfold seq_re.
  change (rmatch (Cat ?a ?b) 0 ?s [] accept)
    with (rmatch a 0 s [] (fun pos' s' caps' => rmatch b pos' s' caps' accept)).
  rewrite rmatch_lit_app. cbn -[rep_loop String.length]. rewrite Hd.
  etrans; [apply (rep_class_greedy is_digit); [by eauto|done]|].
  unfold accept. do 3 f_equal.
  replace (S (String.length "docSeqNo=") + String.length (take_while is_digit t)
           - String.length "docSeqNo=")%nat
    with (S (String.length (take_while is_digit t))) by (simpl; lia).
  f_equal.
  pose proof (substring_app (take_while is_digit t) (drop_while is_digit t)) as H.
  by rewrite take_drop_while in H.
Qed.

Lemma rmatch_seq_re_inv s m :
  rmatch seq_re 0 s [] accept = Some m →
  ∃ d t, s = "docSeqNo=" ++ String d t ∧ is_digit d = true.
Proof.
  unfold seq_re.
  change (rmatch (Cat ?a ?b) 0 ?s [] accept)
    with (rmatch a 0 s [] (fun pos' s' caps' => rmatch b pos' s' caps' accept)).
  intros H.
  destruct (rmatch_lit "docSeqNo=" 0 s []
              (fun pos' s' caps' => rmatch (Grp 1 (plus digit)) pos' s' caps' accept))
    as (t & -> & Heq); [by rewrite H|].
  rewrite Heq in H. destruct t as [|d t]; [done|].
  exists d, t. split; [done|]. simpl in H. by destruct (is_digit d).
Qed.

(** What [docSeqNo=(\d+)] finds: the first place where [docSeqNo=] is
    followed by a digit, and all the digits that follow there. *)
Lemma search_seq_re_Some s m :
  search seq_re s = Some m →
  ∃ pre d t, s = pre ++ "docSeqNo=" ++ String d t ∧ is_digit d = true ∧
             group 1 m = String d (take_while is_digit t).
Proof.
  induction s as [|c s IH]; rewrite search_unfold.
  - by vm_compute.
  - destruct (rmatch seq_re 0 (String c s) [] accept) as [m'|] eqn:E.
    + intros [= <-]. destruct (rmatch_seq_re_inv _ _ E) as (d & t & Hs & Hd).
      exists "", d, t. split; [done|]. split; [done|].
      rewrite Hs, rmatch_seq_re_hit in E by done. by injection E as <-.
    + intros H. destruct (IH H) as (pre & d & t & -> & Hd & Hg).
      by exists (String c pre), d, t.
Qed.

Lemma search_seq_re_None s :
  search seq_re s = None →
  ∀ pre d t, s = pre ++ "docSeqNo=" ++ String d t → is_digit d = false.
Proof.
  intros H pre d t ->. destruct (is_digit d) eqn:Hd; [|done]. exfalso.
  induction pre as [|c pre IH].
  - rewrite search_unfold in H.
    change ("" ++ ?x) with x in H. by rewrite rmatch_seq_re_hit in H.
  - rewrite search_unfold in H.
    change (String c pre ++ ?x) with (String c (pre ++ x)) in H.
    destruct (rmatch seq_re 0 _ [] accept); [done|]. by apply IH.
Qed.

(** The header of the sample page, whatever text follows it. *)
Lemma search_header_sample rest :
  search header_re ("27-11-47 EXAMPLE SITE NAME Activity Type" ++ rest)
  = Some [(2%nat, "EXAMPLE SITE NAME"); (1%nat, "27-11-47")].
Proof. rewrite search_unfold. vm_compute. reflexivity. Qed.

End regex_facts.

(** ** The returned record *)

Section result_facts.

Lemma field_site_info st s e :
  field "site_info" (result st s e) = Some (PDict (PStr <$> site_info st)).
Proof. reflexivity. Qed.

Lemma field_risk_flags st s e :
  field "risk_flags" (result st s e) = Some (PDict (risk_flags st)).
Proof. reflexivity. Qed.

Lemma field_documents st s e :
  field "documents" (result st s e) = Some (PList (py_of_document <$> documents st)).
Proof. reflexivity. Qed.

Lemma field_summary st s e : field "summary" (result st s e) = Some (PStr s).
Proof. reflexivity. Qed.

Lemma field_error st s e : field "error" (result st s e) = Some e.
Proof. reflexivity. Qed.

Lemma keys_result st s e : keys (result st s e) = result_keys.
Proof.
  unfold keys, result, result_keys.
  rewrite !dom_insert_L, dom_empty_L. set_solver.
Qed.

Lemma result_well_formed st s e :
  e = PNone ∨ (∃ msg, e = PStr msg) → well_formed (result st s e).
Proof.
  intros He. unfold well_formed.
  rewrite keys_result, field_site_info, field_risk_flags, field_documents,
    field_summary, field_error.
  repeat split; eauto.
  destruct He as [->|[msg ->]]; eauto.
Qed.

End result_facts.

(** ** The stages, one by one *)

Section stage_facts.

Lemma header_step_frame hm st :
  risk_flags (header_step hm st) = risk_flags st ∧
  documents (header_step hm st) = documents st ∧
  sent (header_step hm st) = sent st.
Proof. by destruct hm. Qed.

Lemma header_step_other hm st key :
  key ≠ "activity_number" → key ≠ "location_name" →
  site_info (header_step hm st) !! key = site_info st !! key.
Proof.
  intros H1 H2. destruct hm as [m|]; [|done]. simpl.
  by rewrite !lookup_insert_ne.
Qed.

Lemma header_step_number m st :
  site_info (header_step (Some m) st) !! "activity_number" = Some (group 1 m).
Proof. simpl. rewrite lookup_insert_ne by done. by rewrite lookup_insert_eq. Qed.

Lemma field_step_same values st idx key :
  site_info (field_step values st (idx, key)) !! key
  = write_field values idx key (site_info st !! key).
Proof.
  unfold field_step, write_field.
  destruct (values !! idx) as [v|]; [|done].
  destruct (truthy v); [|done].
  destruct (String.eqb_spec key "location_name") as [->|Hne]; simpl.
  - case_bool_decide; [done|]. simpl. by rewrite lookup_insert_eq.
  - by rewrite lookup_insert_eq.
Qed.

Lemma field_step_other values st idx key key' :
  key' ≠ key →
  site_info (field_step values st (idx, key)) !! key' = site_info st !! key'.
Proof.
  intros Hne. unfold field_step.
  destruct (values !! idx) as [v|]; [|done].
  destruct (truthy v); [|done].
  destruct (_ && _); [done|]. simpl. by rewrite lookup_insert_ne.
Qed.

Lemma field_step_frame values st item :
  risk_flags (field_step values st item) = risk_flags st ∧
  documents (field_step values st item) = documents st ∧
  sent (field_step values st item) = sent st.
Proof.
  destruct item as [idx key]. unfold field_step.
  destruct (values !! idx) as [v|]; [|done].
  destruct (truthy v); [|done].
  by destruct (_ && _).
Qed.

Lemma fold_field_step_other values items st key :
  key ∉ items.*2 →
  site_info (fold_left (field_step values) items st) !! key = site_info st !! key.
Proof.
  revert st. induction items as [|[idx k] items IH]; intros st Hnot; [done|].
  simpl in *. apply not_elem_of_cons in Hnot as [Hne Hnot].
  rewrite IH by done. by apply field_step_other.
Qed.

Lemma fold_field_step_same values items st idx key :
  NoDup items.*2 → (idx, key) ∈ items →
  site_info (fold_left (field_step values) items st) !! key
  = write_field values idx key (site_info st !! key).
Proof.
  revert st. induction items as [|[i k] items IH]; intros st Hnd Hin.
  - by apply elem_of_nil in Hin.
  - simpl in *. apply NoDup_cons in Hnd as [Hk Hnd].
    apply elem_of_cons in Hin as [Heq|Hin].
    + injection Heq as -> ->.
      rewrite fold_field_step_other by done. apply field_step_same.
    + rewrite IH by done. f_equal. apply field_step_other.
      intros ->. apply Hk. apply list_elem_of_fmap. by exists (idx, k).
Qed.

Lemma fold_field_step_frame values items st :
  risk_flags (fold_left (field_step values) items st) = risk_flags st ∧
  documents (fold_left (field_step values) items st) = documents st ∧
  sent (fold_left (field_step values) items st) = sent st.
Proof.
  revert st. induction items as [|item items IH]; intros st; [done|].
  simpl. destruct (IH (field_step values st item)) as (-> & -> & ->).
  apply field_step_frame.
Qed.

Lemma field_map_keys_NoDup : NoDup field_map.*2.
Proof. apply (bool_decide_unpack _). vm_compute. reflexivity. Qed.

Lemma fields_step_same values st idx key :
  (idx, key) ∈ field_map →
  site_info (fields_step values st) !! key
  = write_field values idx key (site_info st !! key).
Proof. apply fold_field_step_same, field_map_keys_NoDup. Qed.

Lemma fields_step_other values st key :
  key ∉ field_map.*2 →
  site_info (fields_step values st) !! key = site_info st !! key.
Proof. apply fold_field_step_other. Qed.

Lemma fields_step_frame values st :
  risk_flags (fields_step values st) = risk_flags st ∧
  documents (fields_step values st) = documents st ∧
  sent (fields_step values st) = sent st.
Proof. apply fold_field_step_frame. Qed.

Lemma risk_step_frame page_text st :
  site_info (risk_step page_text st) = site_info st ∧
  documents (risk_step page_text st) = documents st ∧
  sent (risk_step page_text st) = sent st.
Proof. unfold risk_step. by repeat case_match. Qed.

Lemma link_step_frame link st :
  site_info (link_step link st) = site_info st ∧
  risk_flags (link_step link st) = risk_flags st ∧
  sent (link_step link st) = sent st.
Proof. unfold link_step. by case_match. Qed.

Lemma collect_links_frame links st :
  site_info (collect_links links st) = site_info st ∧
  risk_flags (collect_links links st) = risk_flags st ∧
  sent (collect_links links st) = sent st.
Proof.
  revert st. induction links as [|link links IH]; intros st; [done|].
  simpl. destruct (IH (link_step link st)) as (-> & -> & ->).
  apply link_step_frame.
Qed.

End stage_facts.

(** ** The risk flags and the documents *)

Section classifier_facts.

Lemma risk_step_flags page_text st :
  risk_flags st = {["status_label" := PStr "UNKNOWN"]} →
  let status := upper (default "" (site_info st !! "status")) in
  let activity_type := upper (default "" (site_info st !! "activity_type")) in
  let text := lower page_text in
  let rf := risk_flags (risk_step page_text st) in
  rf !! "status_label" = Some (PStr (if truthy status then status else "UNKNOWN")) ∧
  rf !! "petroleum" =
    (if String.eqb activity_type "LUST" || contains "petroleum" text
     then Some (PBool true) else None) ∧
  rf !! "pfas" = (if contains "pfas" text then Some (PBool true) else None) ∧
  rf !! "heavy_metals" =
    (if existsb (fun m => contains m text) heavy_metal_words
     then Some (PBool true) else None) ∧
  dom rf ⊆ {["status_label"; "petroleum"; "pfas"; "heavy_metals"]}.
Proof.
  intros H. unfold risk_step. cbn zeta.
  destruct (String.eqb _ "LUST" || contains "petroleum" _);
    destruct (contains "pfas" _);
    destruct (existsb _ heavy_metal_words);
    simpl; rewrite H;
    (split_and!; [reflexivity..|]);
    rewrite ?dom_insert_L, dom_singleton_L;
    intros x; rewrite !elem_of_union, !elem_of_singleton; tauto.
Qed.

Lemma is_document_link_spec t : is_document_link t ↔ document_anchor t.
Proof.
  unfold is_document_link, document_anchor.
  destruct (tag_attrs t !! "href") as [href|].
  - rewrite search_link_re. split.
    + intros [? ?]. eauto.
    + intros [? (h & [= <-] & ?)]. eauto.
  - split; [by intros [_ ?]|by intros [_ (? & ? & _)]].
Qed.

Lemma is_document_link_href t :
  is_document_link t → truthy (tag_get t "href" "") = true.
Proof.
  unfold is_document_link, tag_get. intros [_ H].
  destruct (tag_attrs t !! "href") as [href|]; [|done]. simpl.
  apply truthy_true. by apply search_link_re_nonempty.
Qed.

Lemma link_step_documents link st :
  truthy (tag_get link "href" "") = true →
  documents (link_step link st)
  = (documents st
     ++ [site_file (length (documents st)) (resolve (tag_get link "href" ""))])%list.
Proof. intros H. unfold link_step. by rewrite H. Qed.

(** Every anchor that was kept appends one record, in order. *)
Lemma collect_links_documents links st :
  Forall (fun link => truthy (tag_get link "href" "") = true) links →
  documents (collect_links links st)
  = (documents st ++
     imap (fun k link =>
             site_file (length (documents st) + k) (resolve (tag_get link "href" "")))
          links)%list.
Proof.
  revert st. induction links as [|link links IH]; intros st Hall.
  - simpl. by rewrite app_nil_r.
  - apply Forall_cons in Hall as [Hlink Hall].
    change (collect_links (link :: links) st)
      with (collect_links links (link_step link st)).
    rewrite IH by done. rewrite link_step_documents by done.
    rewrite <- app_assoc. f_equal. simpl. rewrite Nat.add_0_r. f_equal.
    apply imap_ext. intros k link' _. simpl. rewrite length_app. simpl.
    f_equal. lia.
Qed.

Lemma find_all_links_href soup :
  Forall (fun link => truthy (tag_get link "href" "") = true) (find_all_links soup).
Proof.
  apply Forall_forall. intros link Hin. apply is_document_link_href.
  unfold find_all_links in Hin. by apply list_elem_of_filter in Hin as [? _].
Qed.

End classifier_facts.

(** ** Running the [try] block *)

Section pipeline_facts.

Context (w : World).

Lemma bind_unfold {A B} (m : M A) (f : A → M B) st :
  (m ≫= f) st = match m st with
                | (Val a, st') => f a st'
                | (Raise e, st') => (Raise e, st')
                end.
Proof. reflexivity. Qed.

Lemma bind_call_clean {A B} p (v : A) (f : A → M B) st :
  fault w p = None → (call w p v ≫= f) st = f v st.
Proof. intros H. rewrite bind_unfold. unfold call. by rewrite H. Qed.

Lemma bind_call_fault {A B} p (v : A) (f : A → M B) e st :
  fault w p = Some e → (call w p v ≫= f) st = (Raise e, st).
Proof. intros H. rewrite bind_unfold. unfold call. by rewrite H. Qed.

Lemma bind_modify {B} g (f : unit → M B) st : (modify g ≫= f) st = f tt (g st).
Proof. reflexivity. Qed.

Lemma for_links_clean links k st :
  (∀ j, (j < length links)%nat → fault w (at_link (k + j)) = None) →
  for_links w k links st = (Val tt, collect_links links st).
Proof.
  revert k st. induction links as [|link links IH]; intros k st H; [done|].
  cbn [for_links]. rewrite bind_call_clean.
  - rewrite bind_modify. apply IH. intros j Hj.
    replace (S k + j)%nat with (k + S j)%nat by lia. apply H. simpl. lia.
  - rewrite <- (Nat.add_0_r k). apply H. simpl. lia.
Qed.

Lemma for_links_fault links k st j e :
  (j < length links)%nat → fault w (at_link (k + j)) = Some e →
  ∃ e' n, for_links w k links st = (Raise e', collect_links (take n links) st).
Proof.
  revert k st j. induction links as [|link links IH]; intros k st j Hj Hf.
  - simpl in Hj. lia.
  - cbn [for_links]. destruct (fault w (at_link k)) as [e0|] eqn:F.
    + exists e0, 0%nat. by rewrite (bind_call_fault _ _ _ _ _ F).
    + rewrite bind_call_clean by done. rewrite bind_modify.
      destruct j as [|j]; [rewrite Nat.add_0_r in Hf; congruence|].
      destruct (IH (S k) (link_step link st) j) as (e' & n & Heq).
      * simpl in Hj. lia.
      * by replace (S k + j)%nat with (k + S j)%nat by lia.
      * exists e', (S n). by rewrite Heq.
Qed.

(** The anchor loop either runs through, or stops at its first failing
    round with the documents collected so far. *)
Lemma for_links_cases links st :
  ((∀ j, (j < length links)%nat → fault w (at_link j) = None) ∧
   for_links w 0 links st = (Val tt, collect_links links st))
  ∨ ((∃ j e, (j < length links)%nat ∧ fault w (at_link j) = Some e) ∧
     ∃ e' n, for_links w 0 links st = (Raise e', collect_links (take n links) st)).
Proof.
  assert (Hdec : (∀ j, (j < length links)%nat → fault w (at_link j) = None)
                 ∨ (∃ j e, (j < length links)%nat ∧ fault w (at_link j) = Some e)).
  { generalize (length links) as n. induction n as [|n [IH|(j & e & Hj & Hf)]].
    - left. intros j Hj. lia.
    - destruct (fault w (at_link n)) as [e|] eqn:F.
      + right. exists n, e. split; [lia|done].
      + left. intros j Hj. destruct (decide (j = n)) as [->|]; [done|].
        apply IH. lia.
    - right. exists j, e. split; [lia|done]. }
  destruct Hdec as [H|(j & e & Hj & Hf)].
  - left. split; [done|]. by apply for_links_clean.
  - right. split; [by eauto|]. by apply (for_links_fault links 0 st j e).
Qed.

(** Lines 70-157 either run through and hand back what [extract]
    computes, or some library call fails and the containers stay as the
    stages before it left them. *)
Lemma parse_page_cases html st :
  let soup := BeautifulSoup w html in
  (clean w (length (find_all_links soup)) ∧
   parse_page w html st
   = (Val (result (extract soup st) (summary_of (extract soup st)) PNone),
      extract soup st))
  ∨ (¬ clean w (length (find_all_links soup)) ∧
     ∃ e st', parse_page w html st = (Raise e, st') ∧ left_behind soup st st').
Proof.
  intros soup. unfold parse_page, clean, left_behind. fold soup.
  destruct (fault w at_parse) as [e|] eqn:F1.
  { right. split; [by intros (? & _)|]. exists e, st.
    rewrite (bind_call_fault _ _ _ _ _ F1). eauto. }
  rewrite bind_call_clean by done. cbn zeta.
  destruct (fault w at_header) as [e|] eqn:F2.
  { right. split; [by intros (_ & ? & _)|]. exists e, st.
    rewrite (bind_call_fault _ _ _ _ _ F2). eauto. }
  rewrite bind_call_clean by done. rewrite bind_modify.
  destruct (fault w at_inputs) as [e|] eqn:F3.
  { right. split; [by intros (_ & _ & ? & _)|]. eexists e, _.
    rewrite (bind_call_fault _ _ _ _ _ F3). eauto. }
  rewrite bind_call_clean by done. cbn zeta. rewrite bind_modify.
  destruct (fault w at_risk) as [e|] eqn:F4.
  { right. split; [by intros (_ & _ & _ & ? & _)|]. eexists e, _.
    rewrite (bind_call_fault _ _ _ _ _ F4). eauto. }
  rewrite bind_call_clean by done. rewrite bind_modify.
  destruct (fault w at_links) as [e|] eqn:F5.
  { right. split; [by intros (_ & _ & _ & _ & ? & _)|]. eexists e, _.
    rewrite (bind_call_fault _ _ _ _ _ F5). split; [done|].
    do 3 right. by exists 0%nat. }
  rewrite bind_call_clean by done. rewrite bind_unfold.
  match goal with |- context [for_links w 0 ?l ?s] =>
    destruct (for_links_cases l s) as [[Hl ->]|[(j & e & Hj & Hf) (e' & n & ->)]] end.
  2:{ right. split.
      - intros (_ & _ & _ & _ & _ & H & _). rewrite H in Hf by done. done.
      - eexists e', _. split; [done|]. do 3 right. by exists n. }
  destruct (fault w at_summary) as [e|] eqn:F6.
  { right. split; [by intros (_ & _ & _ & _ & _ & _ & ?)|]. eexists e, _.
    rewrite (bind_call_fault _ _ _ _ _ F6). split; [done|].
    do 3 right. exists (length (find_all_links soup)). by rewrite firstn_all. }
  left. split; [done|]. by rewrite bind_call_clean.
Qed.

Lemma for_links_raised links k st e st' :
  for_links w k links st = (Raise e, st') → ∃ p, fault w p = Some e.
Proof.
  revert k st. induction links as [|link links IH]; intros k st; [done|].
  cbn [for_links]. destruct (fault w (at_link k)) as [e0|] eqn:F.
  - rewrite (bind_call_fault _ _ _ _ _ F). intros [= <- _]. by exists (at_link k).
  - rewrite bind_call_clean by done. rewrite bind_modify. apply IH.
Qed.

(** An exception that leaves lines 70-157 is one of the world's. *)
Lemma parse_page_raised html st e st' :
  parse_page w html st = (Raise e, st') → ∃ p, fault w p = Some e.
Proof.
  unfold parse_page.
  destruct (fault w at_parse) as [e1|] eqn:F1.
  { rewrite (bind_call_fault _ _ _ _ _ F1). intros [= <- _]. by exists at_parse. }
  rewrite bind_call_clean by done. cbn zeta.
  destruct (fault w at_header) as [e2|] eqn:F2.
  { rewrite (bind_call_fault _ _ _ _ _ F2). intros [= <- _]. by exists at_header. }
  rewrite bind_call_clean by done. rewrite bind_modify.
  destruct (fault w at_inputs) as [e3|] eqn:F3.
  { rewrite (bind_call_fault _ _ _ _ _ F3). intros [= <- _]. by exists at_inputs. }
  rewrite bind_call_clean by done. cbn zeta. rewrite bind_modify.
  destruct (fault w at_risk) as [e4|] eqn:F4.
  { rewrite (bind_call_fault _ _ _ _ _ F4). intros [= <- _]. by exists at_risk. }
  rewrite bind_call_clean by done. rewrite bind_modify.
  destruct (fault w at_links) as [e5|] eqn:F5.
  { rewrite (bind_call_fault _ _ _ _ _ F5). intros [= <- _]. by exists at_links. }
  rewrite bind_call_clean by done. rewrite bind_unfold.
  match goal with |- context [for_links w 0 ?l ?s] =>
    destruct (for_links w 0 l s) as [[[]|e6] st6] eqn:E6 end.
  2:{ intros [= <- _]. by apply for_links_raised in E6. }
  destruct (fault w at_summary) as [e7|] eqn:F7.
  { rewrite (bind_call_fault _ _ _ _ _ F7). intros [= <- _]. by exists at_summary. }
  by rewrite bind_call_clean.
Qed.

End pipeline_facts.

(** ** Running the function *)

Section run_facts.

Context (w : World) (dsn : string).

Let rq : Request := render_request w dsn.
Let st0 : State := log_request rq (initial dsn).

(** The clauses give a failure Result for what derives from
    [Exception] and let anything else through. *)
Lemma handler_result e st :
  (∃ summary msg, handler e st = (Val (result st summary (PStr msg)), st))
  ∨ (∃ name, e = Interrupt name ∧ handler e st = (Raise (Interrupt name), st)).
Proof. destruct e as [|msg|name]; simpl; eauto. Qed.

Lemma run_no_key :
  BROWSERLESS_API_KEY w = "" →
  run w dsn
  = (Val (result (initial dsn) "Browserless API key required for full scraping."
            (PStr "BROWSERLESS_API_KEY not set. Add it to environment variables.")),
     initial dsn).
Proof. intros H. unfold run. by rewrite H. Qed.

Lemma run_keyed :
  BROWSERLESS_API_KEY w ≠ "" →
  run w dsn = try_except (try_body w dsn) handler (initial dsn).
Proof.
  intros H. unfold run. apply truthy_true in H. by rewrite H.
Qed.

Lemma run_raise e :
  BROWSERLESS_API_KEY w ≠ "" →
  requests_post w rq = inl e →
  run w dsn = handler e st0.
Proof.
  intros Hk Hp. rewrite run_keyed by done.
  unfold try_except, try_body. rewrite bind_unfold. unfold post.
  fold rq. by rewrite Hp.
Qed.

Lemma run_status response :
  BROWSERLESS_API_KEY w ≠ "" →
  requests_post w rq = inr response →
  status_code response ≠ 200%Z →
  run w dsn
  = (Val (result st0 ("Failed to render page: " ++ str_take 200 (text response))
            (PStr ("Browserless API error: " ++ str_of_Z (status_code response)))),
     st0).
Proof.
  intros Hk Hp Hs. rewrite run_keyed by done.
  unfold try_except, try_body. rewrite bind_unfold. unfold post.
  fold rq. rewrite Hp. apply Z.eqb_neq in Hs. by rewrite Hs.
Qed.

Lemma run_page response :
  BROWSERLESS_API_KEY w ≠ "" →
  requests_post w rq = inr response →
  status_code response = 200%Z →
  run w dsn = try_except (parse_page w (text response)) handler st0.
Proof.
  intros Hk Hp Hs. rewrite run_keyed by done.
  unfold try_except, try_body. rewrite bind_unfold. unfold post.
  fold rq. rewrite Hp, Hs. done.
Qed.

(** The success path, end to end. *)
Lemma run_success response :
  BROWSERLESS_API_KEY w ≠ "" →
  requests_post w rq = inr response →
  status_code response = 200%Z →
  clean w (length (find_all_links (BeautifulSoup w (text response)))) →
  let st := extract (BeautifulSoup w (text response)) st0 in
  run w dsn = (Val (result st (summary_of st) PNone), st).
Proof.
  intros Hk Hp Hs Hc st. rewrite (run_page response) by done.
  unfold try_except.
  destruct (parse_page_cases w (text response) st0) as [[_ ->]|[Hn _]]; done.
Qed.

Lemma run_page_failure response :
  BROWSERLESS_API_KEY w ≠ "" →
  requests_post w rq = inr response →
  status_code response = 200%Z →
  ¬ clean w (length (find_all_links (BeautifulSoup w (text response)))) →
  ∃ e st, left_behind (BeautifulSoup w (text response)) st0 st ∧
          (∃ p, fault w p = Some e) ∧
          run w dsn = handler e st.
Proof.
  intros Hk Hp Hs Hc. rewrite (run_page response) by done.
  unfold try_except.
  destruct (parse_page_cases w (text response) st0)
    as [[? _]|[_ (e & st & Heq & Hl)]]; [done|].
  exists e, st. split; [done|]. split; [by apply parse_page_raised in Heq|].
  by rewrite Heq.
Qed.

Lemma left_behind_extract soup st : left_behind soup st (extract soup st).
Proof.
  do 3 right. exists (length (find_all_links soup)). by rewrite firstn_all.
Qed.

Lemma dsn_not_a_field : "dsn" ∉ field_map.*2.
Proof. apply (bool_decide_unpack _). vm_compute. reflexivity. Qed.

(** No stage touches the [dsn] entry or the log of requests, whatever
    state a failure leaves behind. *)
Lemma left_behind_dsn soup st st' :
  left_behind soup st st' →
  site_info st' !! "dsn" = site_info st !! "dsn" ∧ sent st' = sent st.
Proof.
  set (st1 := header_step (search header_re (get_text soup)) st).
  set (st2 := fields_step (input_values (find_all_inputs soup)) st1).
  set (st3 := risk_step (get_text soup) st2).
  assert (H1 : site_info st1 !! "dsn" = site_info st !! "dsn" ∧ sent st1 = sent st).
  { split; [by apply header_step_other|apply header_step_frame]. }
  assert (H2 : site_info st2 !! "dsn" = site_info st !! "dsn" ∧ sent st2 = sent st).
  { destruct H1 as [<- <-]. split.
    - apply fields_step_other, dsn_not_a_field.
    - apply fields_step_frame. }
  assert (H3 : site_info st3 !! "dsn" = site_info st !! "dsn" ∧ sent st3 = sent st).
  { destruct H2 as [<- <-]. unfold st3.
    destruct (risk_step_frame (get_text soup) st2) as (-> & _ & ->). done. }
  intros [->|[->|[->|[n ->]]]]; try done.
  destruct H3 as [<- <-].
  destruct (collect_links_frame (take n (find_all_links soup)) st3) as (Ha & _ & Hb).
  fold st1 st2 st3. by rewrite Ha, Hb.
Qed.

(** Every path ends in a [return] that hands back the containers, or
    in an exception of the world that no clause matches; the error is
    [None] on the success path and a string on all others; the [dsn]
    entry is the one of line 23; at most the one request went out. *)
Lemma run_result :
  ∃ st,
    snd (run w dsn) = st ∧
    site_info st !! "dsn" = Some dsn ∧
    (sent st = [] ∨ sent st = [rq]) ∧
    ((∃ summary error,
        fst (run w dsn) = Val (result st summary error) ∧
        (error = PNone ∧ success_path w dsn ∨
         (∃ msg, error = PStr msg) ∧ ¬ success_path w dsn))
     ∨ (∃ name, fst (run w dsn) = Raise (Interrupt name) ∧
                raised w dsn (Interrupt name))).
Proof.
  assert (Hh : ∀ e st,
            run w dsn = handler e st → raised w dsn e → ¬ success_path w dsn →
            site_info st !! "dsn" = Some dsn → sent st = [rq] →
            ∃ st,
              snd (run w dsn) = st ∧
              site_info st !! "dsn" = Some dsn ∧
              (sent st = [] ∨ sent st = [rq]) ∧
              ((∃ summary error,
                  fst (run w dsn) = Val (result st summary error) ∧
                  (error = PNone ∧ success_path w dsn ∨
                   (∃ msg, error = PStr msg) ∧ ¬ success_path w dsn))
               ∨ (∃ name, fst (run w dsn) = Raise (Interrupt name) ∧
                          raised w dsn (Interrupt name)))).
  { intros e st Hrun Hr Hn Hd Hs. exists st.
    destruct (handler_result e st) as [(s & msg & He)|(name & -> & He)];
      rewrite Hrun, He; simpl; (split; [done|]); (split; [done|]);
      (split; [by right|]).
    - left. exists s, (PStr msg). split; [done|]. right. by eauto.
    - right. by exists name. }
  destruct (decide (BROWSERLESS_API_KEY w = "")) as [Hk|Hk].
  { exists (initial dsn). rewrite run_no_key by done. simpl.
    split; [done|]. split; [done|]. split; [by left|]. left.
    eexists _, _. split; [done|]. right. split; [by eauto|by intros [? _]]. }
  destruct (requests_post w rq) as [e|response] eqn:Hp.
  { apply (Hh e st0); [by apply run_raise|by left| |done|done].
    intros (_ & r & Hr & _). fold rq in Hr. congruence. }
  destruct (decide (status_code response = 200%Z)) as [Hs|Hs].
  2:{ exists st0. rewrite (run_status response) by done. simpl.
      split; [done|]. split; [done|]. split; [by right|]. left.
      eexists _, _. split; [done|]. right. split; [by eauto|].
      intros (_ & r & Hr & Hr' & _). fold rq in Hr. congruence. }
  set (soup := BeautifulSoup w (text response)).
  destruct (parse_page_cases w (text response) st0) as [[Hc _]|[Hc _]].
  - exists (extract soup st0). rewrite (run_success response) by done. simpl.
    destruct (left_behind_dsn soup st0 _ (left_behind_extract soup st0)) as [-> ->].
    split; [done|]. split; [done|]. split; [by right|]. left.
    eexists _, _. split; [done|]. left. split; [done|].
    split; [done|]. by exists response.
  - destruct (run_page_failure response) as (e & st & Hl & Hf & Hrun); [done..|].
    destruct (left_behind_dsn soup st0 st Hl) as [Hd Hs'].
    apply (Hh e st); [done|by right| |by rewrite Hd|by rewrite Hs'].
    intros (_ & r & Hr & _ & Hc').
    fold rq in Hr. rewrite Hp in Hr. injection Hr as <-. done.
Qed.

End run_facts.

(** ** What a page that parses leaves in the containers *)

Section extract_facts.

Context (soup : Soup) (dsn : string) (rq : Request).

Let st0 : State := log_request rq (initial dsn).
Let header_match := search header_re (get_text soup).
Let values := input_values (find_all_inputs soup).

Lemma extract_site_info st :
  site_info (extract soup st)
  = site_info (fields_step (input_values (find_all_inputs soup))
                 (header_step (search header_re (get_text soup)) st)).
Proof.
  unfold extract.
  destruct (collect_links_frame (find_all_links soup)
              (risk_step (get_text soup)
                 (fields_step (input_values (find_all_inputs soup))
                    (header_step (search header_re (get_text soup)) st))))
    as (-> & _ & _).
  apply risk_step_frame.
Qed.

Lemma extract_risk_flags st :
  risk_flags (extract soup st)
  = risk_flags (risk_step (get_text soup)
                  (fields_step (input_values (find_all_inputs soup))
                     (header_step (search header_re (get_text soup)) st))).
Proof. unfold extract. apply collect_links_frame. Qed.

Lemma extract_documents st :
  documents st = [] →
  documents (extract soup st)
  = imap (fun k link => site_file k (resolve (tag_get link "href" "")))
         (find_all_links soup).
Proof.
  intros Hd. unfold extract.
  rewrite collect_links_documents by apply find_all_links_href.
  destruct (risk_step_frame (get_text soup)
              (fields_step (input_values (find_all_inputs soup))
                 (header_step (search header_re (get_text soup)) st)))
    as (_ & -> & _).
  destruct (fields_step_frame (input_values (find_all_inputs soup))
              (header_step (search header_re (get_text soup)) st))
    as (_ & -> & _).
  destruct (header_step_frame (search header_re (get_text soup)) st)
    as (_ & -> & _).
  rewrite Hd. done.
Qed.

Lemma field_map_names : field_map = imap (fun i k => (i, k)) field_names.
Proof. reflexivity. Qed.

Lemma field_names_lookup idx key :
  field_names !! idx = Some key → (idx, key) ∈ field_map.
Proof.
  intros H. rewrite field_map_names. apply list_elem_of_lookup. exists idx.
  by rewrite list_lookup_imap, H.
Qed.

(** Before the positional step a key of the table is present only if
    it is [location_name] and the header search found one. *)
Lemma header_step_field idx key :
  field_names !! idx = Some key →
  site_info (header_step header_match st0) !! key
  = match header_match with
    | Some m => if decide (key = "location_name")
                then Some (strip (group 2 m)) else None
    | None => None
    end.
Proof.
  intros H. apply list_elem_of_lookup_2, list_elem_of_In in H.
  destruct header_match as [m|]; simpl in H;
    repeat (destruct H as [<-|H]; [reflexivity|]); done.
Qed.

(** The entry of a key of the table once the page is taken apart. *)
Lemma extract_field idx key :
  field_names !! idx = Some key →
  site_info (extract soup st0) !! key
  = match header_match with
    | Some m =>
        if decide (key = "location_name") then Some (strip (group 2 m))
        else match values !! idx with
             | Some v => if truthy v then Some v else None
             | None => None
             end
    | None =>
        match values !! idx with
        | Some v => if truthy v then Some v else None
        | None => None
        end
    end.
Proof.
  intros H. rewrite extract_site_info.
  rewrite (fields_step_same _ _ idx key) by by apply field_names_lookup.
  fold header_match values. rewrite (header_step_field idx key H).
  unfold write_field.
  destruct header_match as [m|].
  - destruct (decide (key = "location_name")) as [->|Hne].
    + destruct (values !! idx) as [v|]; [|done]. by destruct (truthy v).
    + apply String.eqb_neq in Hne. rewrite Hne. simpl.
      destruct (values !! idx) as [v|]; [|done]. by destruct (truthy v).
  - destruct (values !! idx) as [v|]; [|done].
    destruct (truthy v); [|done]. by rewrite andb_false_r.
Qed.

Lemma extract_activity_number m :
  header_match = Some m →
  site_info (extract soup st0) !! "activity_number" = Some (group 1 m).
Proof.
  intros H. rewrite extract_site_info, fields_step_other.
  - fold header_match. rewrite H. apply header_step_number.
  - apply (bool_decide_unpack _). vm_compute. reflexivity.
Qed.

End extract_facts.

(** ** The log of requests does not matter to the stages *)

Section log_facts.

Context (rq : Request).

Lemma header_step_log hm st :
  header_step hm (log_request rq st) = log_request rq (header_step hm st).
Proof. by destruct hm. Qed.

Lemma field_step_log values st item :
  field_step values (log_request rq st) item = log_request rq (field_step values st item).
Proof.
  destruct item as [idx key]. unfold field_step.
  destruct (values !! idx) as [v|]; [|done].
  destruct (truthy v); [|done]. simpl.
  by destruct (String.eqb key "location_name" && _).
Qed.

Lemma fields_step_log values st :
  fields_step values (log_request rq st) = log_request rq (fields_step values st).
Proof.
  unfold fields_step. generalize field_map as items. intros items. revert st.
  induction items as [|item items IH]; intros st; [done|].
  simpl. by rewrite field_step_log, IH.
Qed.

Lemma risk_step_log page_text st :
  risk_step page_text (log_request rq st) = log_request rq (risk_step page_text st).
Proof. unfold risk_step. simpl. by repeat case_match. Qed.

Lemma link_step_log link st :
  link_step link (log_request rq st) = log_request rq (link_step link st).
Proof. unfold link_step. by case_match. Qed.

Lemma collect_links_log links st :
  collect_links links (log_request rq st) = log_request rq (collect_links links st).
Proof.
  revert st. induction links as [|link links IH]; intros st; [done|].
  simpl. by rewrite link_step_log, IH.
Qed.

Lemma extract_log soup st :
  extract soup (log_request rq st) = log_request rq (extract soup st).
Proof.
  unfold extract.
  by rewrite header_step_log, fields_step_log, risk_step_log, collect_links_log.
Qed.

End log_facts.

(** * The claims *)

(** The credential of a sample world, and its success path, by
    evaluation. *)
Ltac has_key := let H := fresh in intros H; vm_compute in H; discriminate H.

Ltac on_success_path :=
  split; [has_key|]; eexists; split; [reflexivity|];
  split; [reflexivity|]; by repeat split.

(** A sample world raises nothing outside [Exception]. *)
Ltac no_interrupt :=
  let H := fresh in
  let p := fresh in
  intros ? [H|[p H]];
  [ vm_compute in H; discriminate H
  | destruct p as [| | | | |[|[|?]]|]; vm_compute in H; discriminate H ].

Section claims.

Lemma initial_sentinel dsn st s e :
  site_info st = {["dsn" := dsn]} →
  risk_flags st = {["status_label" := PStr "UNKNOWN"]} →
  documents st = [] →
  sentinel dsn (result st s e).
Proof.
  intros H1 H2 H3. unfold sentinel.
  rewrite field_site_info, field_risk_flags, field_documents, H1, H2, H3.
  by rewrite map_fmap_singleton.
Qed.

(** C1, as the code has it: when nothing the world raises is outside
    [Exception], then whatever the credential, the rendering service
    and the library calls do, [scrape_with_browserless] returns a
    well-formed Result and raises nothing; the [error] entry is [None]
    exactly on the success path and a string on every other path. *)
Theorem scrape_returns_what_it_catches (w : World) (dsn : string) :
  only_exceptions w dsn →
  ∃ r, scrape_with_browserless w dsn = Val r ∧
       well_formed r ∧
       (field "error" r = Some PNone ↔ success_path w dsn) ∧
       (¬ success_path w dsn → ∃ msg, field "error" r = Some (PStr msg)).
Proof.
  intros Hexc.
  destruct (run_result w dsn)
    as (st & _ & _ & _ & [(s & e & Hrun & He)|(name & _ & Hr)]);
    [|by destruct (Hexc name)].
  exists (result st s e). unfold scrape_with_browserless.
  split; [done|]. rewrite field_error. split.
  - apply result_well_formed. destruct He as [[-> _]|[[msg ->] _]]; eauto.
  - destruct He as [[-> Hs]|[[msg ->] Hs]].
    + split; [done|]. intros Hn. by destruct Hn.
    + split; [split; [done|by intros ?]|]. eauto.
Qed.

Lemma scrape_returns_what_it_catches_witness :
  ∃ r, scrape_with_browserless broken_world "271147" = Val r ∧
       well_formed r ∧
       (field "error" r = Some PNone ↔ success_path broken_world "271147") ∧
       (¬ success_path broken_world "271147" →
        ∃ msg, field "error" r = Some (PStr msg)).
Proof. apply (scrape_returns_what_it_catches broken_world "271147"). no_interrupt. Defined.

(** C1, as the claim has it, fails: an exception that does not derive
    from [Exception], here the interrupt of a user who gives up waiting
    for the request, matches neither [except] clause and reaches the
    caller. *)
Lemma interrupt_reaches_the_caller :
  BROWSERLESS_API_KEY interrupted_world ≠ "" ∧
  requests_post interrupted_world (render_request interrupted_world "271147")
  = inl (Interrupt "KeyboardInterrupt") ∧
  scrape_with_browserless interrupted_world "271147"
  = Raise (Interrupt "KeyboardInterrupt").
Proof. split; [has_key|]. split; reflexivity. Qed.

(** C7: without a credential the function returns at once: nothing is
    sent, the [error] entry explains what is missing, and the three
    containers are the ones of lines 23-25. *)
Theorem missing_credential (w : World) (dsn : string) :
  environ w !! "BROWSERLESS_API_KEY" = None
  ∨ environ w !! "BROWSERLESS_API_KEY" = Some "" →
  ∃ r, scrape_with_browserless w dsn = Val r ∧
       requests_sent w dsn = [] ∧
       field "error" r
       = Some (PStr "BROWSERLESS_API_KEY not set. Add it to environment variables.") ∧
       sentinel dsn r.
Proof.
  intros Henv.
  assert (Hk : BROWSERLESS_API_KEY w = "").
  { unfold BROWSERLESS_API_KEY. by destruct Henv as [-> | ->]. }
  unfold scrape_with_browserless, requests_sent.
  rewrite run_no_key by done. eexists. split; [done|]. split; [done|].
  split; [done|]. by apply initial_sentinel.
Qed.

Lemma missing_credential_witness :
  ∃ r, scrape_with_browserless keyless_world "271147" = Val r ∧
       requests_sent keyless_world "271147" = [] ∧
       field "error" r
       = Some (PStr "BROWSERLESS_API_KEY not set. Add it to environment variables.") ∧
       sentinel "271147" r.
Proof. apply (missing_credential keyless_world "271147"). left. reflexivity. Defined.

(** C8: at most one request goes out and it carries [timeout=60]; when
    that request times out, the Result says "Request timed out" and the
    three containers are the ones of lines 23-25. *)
Theorem timeout_bounded_and_reported (w : World) (dsn : string) :
  ((requests_sent w dsn = [] ∨ requests_sent w dsn = [render_request w dsn]) ∧
   req_timeout (render_request w dsn) = 60%Z) ∧
  (BROWSERLESS_API_KEY w ≠ "" →
   requests_post w (render_request w dsn) = inl Timeout →
   ∃ r, scrape_with_browserless w dsn = Val r ∧
        requests_sent w dsn = [render_request w dsn] ∧
        field "error" r = Some (PStr "Request timed out") ∧
        sentinel dsn r).
Proof.
  split.
  - split; [|done].
    destruct (run_result w dsn) as (st & Hsnd & _ & Hsent & _).
    unfold requests_sent. by rewrite Hsnd.
  - intros Hk Hp. unfold scrape_with_browserless, requests_sent.
    rewrite (run_raise w dsn Timeout) by done. simpl.
    eexists. split; [done|]. split; [done|]. split; [done|].
    by apply initial_sentinel.
Qed.

Lemma timeout_bounded_and_reported_witness :
  ∃ r, scrape_with_browserless timeout_world "271147" = Val r ∧
       requests_sent timeout_world "271147" = [render_request timeout_world "271147"] ∧
       field "error" r = Some (PStr "Request timed out") ∧
       sentinel "271147" r.
Proof.
  apply (proj2 (timeout_bounded_and_reported timeout_world "271147")).
  - has_key.
  - reflexivity.
Defined.

(** C10: on every path that returns, the Result has exactly the keys
    [site_info], [risk_flags], [documents], [summary] and [error], and
    its [site_info] maps [dsn] to the identifier the caller passed; the
    only calls that do not return are those that end in an exception
    outside [Exception]. *)
Theorem result_shape (w : World) (dsn : string) :
  (∃ r si, scrape_with_browserless w dsn = Val r ∧
           keys r = result_keys ∧
           field "site_info" r = Some (PDict si) ∧
           si !! "dsn" = Some (PStr dsn))
  ∨ propagates w dsn.
Proof.
  destruct (run_result w dsn)
    as (st & _ & Hdsn & _ & [(s & e & Hrun & _)|(name & Hrun & Hr)]).
  - left. exists (result st s e), (PStr <$> site_info st).
    split; [done|]. split; [apply keys_result|]. split; [done|].
    by rewrite lookup_fmap, Hdsn.
  - right. by exists name.
Qed.

Lemma scrape_success w dsn response :
  success_path w dsn →
  requests_post w (render_request w dsn) = inr response →
  let st := extract (BeautifulSoup w (text response))
              (log_request (render_request w dsn) (initial dsn)) in
  scrape_with_browserless w dsn = Val (result st (summary_of st) PNone).
Proof.
  intros (Hk & r & Hr & Hs & Hc) Hp st.
  rewrite Hp in Hr. injection Hr as <-.
  unfold scrape_with_browserless. by rewrite (run_success w dsn response).
Qed.

(** C3, as the code has it: on a page that parses, the inputs of class
    [form-control] are taken in document order and their values
    stripped; the value at position [idx] of the table (activity_type,
    status, ... end_date) is what [site_info] holds for the field of
    that position, a field is present only if its value is not empty,
    and positions the page does not have are left out; the one
    exception is [location_name], which keeps the name of the header
    when the header search found one, whatever position 5 holds. *)
Theorem positional_extraction (w : World) (dsn : string) (response : Response)
    (idx : nat) (key : string) :
  success_path w dsn →
  requests_post w (render_request w dsn) = inr response →
  field_names !! idx = Some key →
  let soup := BeautifulSoup w (text response) in
  let inputs := filter (fun t => tag_name t = "input" ∧ "form-control" ∈ tag_class t)
                  (descendants soup) in
  let values := (fun inp => strip (default "" (tag_attrs inp !! "value"))) <$> inputs in
  let positional := match values !! idx with
                    | Some v => if decide (v = "") then None else Some (PStr v)
                    | None => None
                    end in
  ∃ r si, scrape_with_browserless w dsn = Val r ∧
          field "site_info" r = Some (PDict si) ∧
          si !! key = match search header_re (get_text soup) with
                      | Some m => if decide (key = "location_name")
                                  then Some (PStr (strip (group 2 m)))
                                  else positional
                      | None => positional
                      end.
Proof.
  intros Hs Hp Hkey soup inputs values positional.
  eexists _, _. split; [by apply (scrape_success w dsn response)|].
  split; [apply field_site_info|].
  rewrite lookup_fmap, (extract_field _ _ _ idx key Hkey). fold soup.
  change (input_values (find_all_inputs soup)) with values.
  assert (Hpos : PStr <$> match values !! idx with
                          | Some v => if truthy v then Some v else None
                          | None => None
                          end = positional).
  { unfold positional. destruct (values !! idx) as [v|]; [|done].
    destruct v; done. }
  destruct (search header_re (get_text soup)) as [m|]; [|done].
  by destruct (decide (key = "location_name")).
Qed.

Lemma positional_extraction_witness :
  ∃ r si, scrape_with_browserless sample_world "271147" = Val r ∧
          field "site_info" r = Some (PDict si) ∧
          si !! "status" = Some (PStr "OPEN").
Proof.
  apply (positional_extraction sample_world "271147"
           {| status_code := 200; text := "<html></html>" |} 1 "status").
  - on_success_path.
  - reflexivity.
  - reflexivity.
Defined.

(** C3, as the claim has it, fails: on the sample page the input at
    position 5, the position of [location_name], holds the non-empty
    value "OTHER NAME", the page parses without an error, and yet
    [site_info] does not hold that value under [location_name]: line
    110 keeps the name the header search stored. *)
Lemma position_five_is_not_written :
  field_names !! 5%nat = Some "location_name" ∧
  input_values (find_all_inputs sample_page) !! 5%nat = Some "OTHER NAME" ∧
  ∃ r si,
    scrape_with_browserless sample_world "271147" = Val r ∧
    field "error" r = Some PNone ∧
    field "site_info" r = Some (PDict si) ∧
    si !! "location_name" = Some (PStr "EXAMPLE SITE NAME") ∧
    si !! "location_name" ≠ Some (PStr "OTHER NAME").
Proof.
  split; [reflexivity|]. split; [vm_compute; reflexivity|].
  eexists _, _. split; [vm_compute; reflexivity|].
  split; [reflexivity|]. split; [vm_compute; reflexivity|].
  split; [vm_compute; reflexivity|].
  intros H. vm_compute in H. discriminate H.
Qed.

(** C6: a page that parses and whose text starts with
    "27-11-47 EXAMPLE SITE NAME Activity Type" gets [activity_number]
    "27-11-47" and [location_name] "EXAMPLE SITE NAME"; and whenever the
    header search matches, [location_name] is the name it found,
    whatever the input at position 5 holds. *)
Theorem header_takes_precedence (w : World) (dsn : string) (response : Response) :
  success_path w dsn →
  requests_post w (render_request w dsn) = inr response →
  let page_text := get_text (BeautifulSoup w (text response)) in
  ∃ r si, scrape_with_browserless w dsn = Val r ∧
          field "site_info" r = Some (PDict si) ∧
          (∀ m, search header_re page_text = Some m →
                si !! "activity_number" = Some (PStr (group 1 m)) ∧
                si !! "location_name" = Some (PStr (strip (group 2 m)))) ∧
          (∀ rest, page_text = "27-11-47 EXAMPLE SITE NAME Activity Type" ++ rest →
                   si !! "activity_number" = Some (PStr "27-11-47") ∧
                   si !! "location_name" = Some (PStr "EXAMPLE SITE NAME")).
Proof.
  intros Hs Hp page_text.
  eexists _, _. split; [by apply (scrape_success w dsn response)|].
  split; [apply field_site_info|].
  assert (Hm : ∀ m, search header_re page_text = Some m →
            (PStr <$> site_info (extract (BeautifulSoup w (text response))
                        (log_request (render_request w dsn) (initial dsn))))
              !! "activity_number" = Some (PStr (group 1 m)) ∧
            (PStr <$> site_info (extract (BeautifulSoup w (text response))
                        (log_request (render_request w dsn) (initial dsn))))
              !! "location_name" = Some (PStr (strip (group 2 m)))).
  { intros m Hm. rewrite !lookup_fmap.
    rewrite (extract_activity_number _ _ _ m Hm).
    rewrite (extract_field _ _ _ 5 "location_name" eq_refl).
    fold page_text. by rewrite Hm. }
  split; [done|].
  intros rest Hrest. apply (Hm [(2%nat, "EXAMPLE SITE NAME"); (1%nat, "27-11-47")]).
  rewrite Hrest. apply search_header_sample.
Qed.

Lemma header_takes_precedence_witness :
  ∃ r si, scrape_with_browserless sample_world "271147" = Val r ∧
          field "site_info" r = Some (PDict si) ∧
          (∀ m, search header_re (get_text sample_page) = Some m →
                si !! "activity_number" = Some (PStr (group 1 m)) ∧
                si !! "location_name" = Some (PStr (strip (group 2 m)))) ∧
          (∀ rest, get_text sample_page
                   = "27-11-47 EXAMPLE SITE NAME Activity Type" ++ rest →
                   si !! "activity_number" = Some (PStr "27-11-47") ∧
                   si !! "location_name" = Some (PStr "EXAMPLE SITE NAME")).
Proof.
  apply (header_takes_precedence sample_world "271147"
           {| status_code := 200; text := "<html></html>" |}).
  - on_success_path.
  - reflexivity.
Defined.

Lemma risk_flags_before_classifier soup dsn rq :
  risk_flags (fields_step (input_values (find_all_inputs soup))
                (header_step (search header_re (get_text soup))
                   (log_request rq (initial dsn))))
  = {["status_label" := PStr "UNKNOWN"]}.
Proof.
  destruct (fields_step_frame (input_values (find_all_inputs soup))
              (header_step (search header_re (get_text soup))
                 (log_request rq (initial dsn)))) as (-> & _).
  by destruct (header_step_frame (search header_re (get_text soup))
                 (log_request rq (initial dsn))) as (-> & _).
Qed.

Lemma truthy_upper s : truthy (upper s) = true ↔ s ≠ "".
Proof. rewrite truthy_true. unfold upper. by rewrite smap_nil. Qed.

Lemma risk_step_quiet page_text st :
  risk_flags st = {["status_label" := PStr "UNKNOWN"]} →
  String.eqb (upper (default "" (site_info st !! "activity_type"))) "LUST"
    || contains "petroleum" (lower page_text) = false →
  contains "pfas" (lower page_text) = false →
  existsb (fun m => contains m (lower page_text)) heavy_metal_words = false →
  ∃ label, risk_flags (risk_step page_text st) = {["status_label" := PStr label]}.
Proof.
  intros H H1 H2 H3. unfold risk_step. cbn zeta. simpl site_info.
  rewrite H1, H2, H3. simpl. rewrite H. eexists. apply insert_singleton_eq.
Qed.

(** C4, as the code has it: on the success path [status_label] is the
    upper-cased [status] of [site_info], or "UNKNOWN" when there is
    none; [petroleum], [pfas] and [heavy_metals] are [True] exactly when
    their rule fires and are absent otherwise; and the mapping holds
    [status_label] alone when no keyword occurs in the text and the
    activity type is not LUST. *)
Theorem risk_classification (w : World) (dsn : string) (response : Response) :
  success_path w dsn →
  requests_post w (render_request w dsn) = inr response →
  let page_text := lower (get_text (BeautifulSoup w (text response))) in
  ∃ r si rf,
    scrape_with_browserless w dsn = Val r ∧
    field "site_info" r = Some (PDict (PStr <$> si)) ∧
    field "risk_flags" r = Some (PDict rf) ∧
    let status := default "" (si !! "status") in
    let activity_type := default "" (si !! "activity_type") in
    let petroleum := caseless_eq activity_type "LUST"
                     ∨ contains "petroleum" page_text = true in
    let pfas := contains "pfas" page_text = true in
    let heavy_metals :=
      ∃ m, m ∈ ["arsenic"; "lead"; "mercury"; "chromium"] ∧ contains m page_text = true in
    rf !! "status_label"
    = Some (PStr (if decide (status = "") then "UNKNOWN" else upper status)) ∧
    (petroleum → rf !! "petroleum" = Some (PBool true)) ∧
    (¬ petroleum → rf !! "petroleum" = None) ∧
    (pfas → rf !! "pfas" = Some (PBool true)) ∧
    (¬ pfas → rf !! "pfas" = None) ∧
    (heavy_metals → rf !! "heavy_metals" = Some (PBool true)) ∧
    (¬ heavy_metals → rf !! "heavy_metals" = None) ∧
    dom rf ⊆ {["status_label"; "petroleum"; "pfas"; "heavy_metals"]} ∧
    (¬ petroleum → ¬ pfas → ¬ heavy_metals → dom rf = {["status_label"]}).
Proof.
  intros Hs Hp page_text.
  set (soup := BeautifulSoup w (text response)) in *.
  set (rq := render_request w dsn).
  set (st2 := fields_step (input_values (find_all_inputs soup))
                (header_step (search header_re (get_text soup))
                   (log_request rq (initial dsn)))).
  exists (result (extract soup (log_request rq (initial dsn)))
            (summary_of (extract soup (log_request rq (initial dsn)))) PNone),
    (site_info st2), (risk_flags (risk_step (get_text soup) st2)).
  split; [by apply (scrape_success w dsn response)|].
  split; [by rewrite field_site_info, extract_site_info|].
  split; [by rewrite field_risk_flags, extract_risk_flags|].
  intros status activity_type petroleum pfas heavy_metals.
  assert (Hrf : risk_flags st2 = {["status_label" := PStr "UNKNOWN"]})
    by apply risk_flags_before_classifier.
  destruct (risk_step_flags (get_text soup) st2 Hrf) as (H1 & H2 & H3 & H4 & H5).
  fold status activity_type page_text in H1, H2, H3, H4.
  assert (Hpet : petroleum ↔
            String.eqb (upper activity_type) "LUST" || contains "petroleum" page_text = true).
  { unfold petroleum. rewrite orb_true_iff, String.eqb_eq.
    by rewrite <- (upper_eq_caseless activity_type "LUST"). }
  assert (Hhm : heavy_metals ↔
            existsb (fun m => contains m page_text) heavy_metal_words = true).
  { unfold heavy_metals. rewrite existsb_exists.
    split; intros (m & Hin & Hm); exists m; (split; [|done]);
      by apply list_elem_of_In. }
  split.
  { rewrite H1. do 2 f_equal. destruct (decide (status = "")) as [->|Hne]; [done|].
    apply truthy_upper in Hne. fold status in Hne. by rewrite Hne. }
  split; [intros Hy; apply Hpet in Hy; by rewrite H2, Hy|].
  split; [intros Hn; rewrite H2; destruct (_ || _) eqn:E; [by destruct Hn; apply Hpet|done]|].
  split; [intros Hy; unfold pfas in Hy; by rewrite H3, Hy|].
  split; [intros Hn; rewrite H3; by destruct (contains "pfas" page_text)|].
  split; [intros Hy; apply Hhm in Hy; by rewrite H4, Hy|].
  split; [intros Hn; rewrite H4; destruct (existsb _ _) eqn:E; [by destruct Hn; apply Hhm|done]|].
  split; [done|].
  intros Hn1 Hn2 Hn3.
  destruct (risk_step_quiet (get_text soup) st2 Hrf) as [label ->].
  - fold activity_type page_text. destruct (_ || _) eqn:E; [|done].
    by destruct Hn1; apply Hpet.
  - fold page_text. by destruct (contains "pfas" page_text).
  - fold page_text. destruct (existsb _ _) eqn:E; [|done].
    by destruct Hn3; apply Hhm.
  - apply dom_singleton_L.
Qed.

Lemma risk_classification_witness :
  success_path lust_world "271147" ∧
  ∃ r si rf,
    scrape_with_browserless lust_world "271147" = Val r ∧
    field "site_info" r = Some (PDict (PStr <$> si)) ∧
    field "risk_flags" r = Some (PDict rf) ∧
    rf !! "status_label"
    = Some (PStr (if decide (default "" (si !! "status") = "") then "UNKNOWN"
                  else upper (default "" (si !! "status")))).
Proof.
  assert (Hs : success_path lust_world "271147").
  { on_success_path. }
  split; [exact Hs|].
  destruct (risk_classification lust_world "271147"
              {| status_code := 200; text := "<html></html>" |} Hs eq_refl)
    as (r & si & rf & H1 & H2 & H3 & H4 & _).
  by exists r, si, rf.
Defined.

(** C4, as the claim has it, fails: the page of a LUST activity whose
    text has none of the keywords still gets the [petroleum] flag, so
    its mapping does not hold [status_label] alone. *)
Lemma keywordless_text_with_petroleum_flag :
  contains "petroleum" (lower (get_text lust_page)) = false ∧
  contains "pfas" (lower (get_text lust_page)) = false ∧
  existsb (fun m => contains m (lower (get_text lust_page)))
    ["arsenic"; "lead"; "mercury"; "chromium"] = false ∧
  ∃ r, scrape_with_browserless lust_world "271147" = Val r ∧
       field "error" r = Some PNone ∧
       field "risk_flags" r
       = Some (PDict (<["petroleum" := PBool true]> {["status_label" := PStr "OPEN"]})).
Proof.
  split; [reflexivity|]. split; [reflexivity|]. split; [reflexivity|].
  eexists. split; [reflexivity|]. split; [reflexivity|].
  vm_compute. reflexivity.
Qed.

Lemma to_uint_nonnil n : Nat.to_uint n ≠ Decimal.Nil.
Proof.
  rewrite <- (DecimalNat.Unsigned.of_to n).
  rewrite DecimalNat.Unsigned.to_of. apply DecimalFacts.unorm_nonnil.
Qed.

(** [str(n)] is the decimal numeral of [n]. *)
Lemma decimal_str_of_nat n : decimal (str_of_nat n) n.
Proof. apply NilZero.usu, to_uint_nonnil. Qed.

Lemma sequence_id_spec count url : sequence_spec count url (sequence_id count url).
Proof.
  unfold sequence_spec, sequence_id.
  destruct (search seq_re url) as [m|] eqn:E.
  - left. destruct (search_seq_re_Some url m E) as (pre & d & t & ? & ? & ?).
    by exists pre, d, t.
  - right. split; [by apply search_seq_re_None|apply decimal_str_of_nat].
Qed.

Lemma keys_py_of_document d :
  keys (py_of_document d) = {["id"; "download_url"; "category"; "name"; "comment"]}.
Proof.
  unfold keys, py_of_document. rewrite !dom_insert_L, dom_empty_L.
  apply set_eq. intros x. rewrite !elem_of_union, !elem_of_singleton, elem_of_empty.
  tauto.
Qed.

(** C5, as the code has it: on the success path the anchors kept are
    those of the page, in document order, whose [href] has
    [download-document] or [docSeqNo] in it; each of them gives one
    dict in [documents], the [k]-th one with [id] [k], as
    [download_url] the [href], with the host put before it when it does
    not start with [http], the category "Site File", the fixed comment,
    and a name that embeds the digits after [docSeqNo=] or else the
    decimal numeral of [k]; the anchor [/document?docSeqNo=4821] gives
    the URL and the name of the claim. *)
Theorem document_collection (w : World) (dsn : string) (response : Response) :
  success_path w dsn →
  requests_post w (render_request w dsn) = inr response →
  let soup := BeautifulSoup w (text response) in
  let links := find_all_links soup in
  ∃ r items,
    scrape_with_browserless w dsn = Val r ∧
    field "documents" r = Some (PList items) ∧
    links `sublist_of` descendants soup ∧
    (∀ t, t ∈ links ↔ t ∈ descendants soup ∧ document_anchor t) ∧
    length items = length links ∧
    (∀ k link, links !! k = Some link →
       ∃ href item url seq,
         tag_attrs link !! "href" = Some href ∧
         items !! k = Some item ∧
         keys item = {["id"; "download_url"; "category"; "name"; "comment"]} ∧
         field "id" item = Some (PInt (Z.of_nat k)) ∧
         field "download_url" item = Some (PStr url) ∧
         url = (if startswith "http" href then href
                else "https://apps.dnr.wi.gov" ++ href) ∧
         field "category" item = Some (PStr "Site File") ∧
         sequence_spec k url seq ∧
         field "name" item = Some (PStr ("Site File Documentation (ID: " ++ seq ++ ")")) ∧
         field "comment" item = Some (PStr "DNR site documentation")) ∧
    (∀ k link, links !! k = Some link →
       tag_attrs link !! "href" = Some "/document?docSeqNo=4821" →
       ∃ item, items !! k = Some item ∧
               field "download_url" item
               = Some (PStr "https://apps.dnr.wi.gov/document?docSeqNo=4821") ∧
               field "name" item = Some (PStr "Site File Documentation (ID: 4821)")).
Proof.
  intros Hs Hp soup links.
  set (st := extract soup (log_request (render_request w dsn) (initial dsn))).
  exists (result st (summary_of st) PNone), (py_of_document <$> documents st).
  split; [by apply (scrape_success w dsn response)|].
  split; [apply field_documents|].
  split; [apply sublist_filter|].
  split.
  { intros t. unfold links, find_all_links.
    rewrite list_elem_of_filter, is_document_link_spec. tauto. }
  assert (Hdocs : documents st
            = imap (fun k link => site_file k (resolve (tag_get link "href" ""))) links)
    by by apply extract_documents.
  split; [by rewrite length_fmap, Hdocs, length_imap|].
  assert (Hhref : ∀ k link, links !! k = Some link →
            ∃ href, tag_attrs link !! "href" = Some href ∧
                    (py_of_document <$> documents st) !! k
                    = Some (py_of_document (site_file k (resolve href)))).
  { intros k link Hk. rewrite list_lookup_fmap, Hdocs, list_lookup_imap, Hk. simpl.
    assert (Hl : is_document_link link).
    { apply list_elem_of_lookup_2 in Hk. unfold links, find_all_links in Hk.
      by apply list_elem_of_filter in Hk as [? _]. }
    destruct Hl as [_ Hl]. unfold tag_get.
    destruct (tag_attrs link !! "href") as [href|]; [|done]. by exists href. }
  split.
  - intros k link Hk. destruct (Hhref k link Hk) as (href & Ha & Hd).
    exists href, (py_of_document (site_file k (resolve href))), (resolve href),
      (sequence_id k (resolve href)).
    split; [done|]. split; [done|]. split; [apply keys_py_of_document|].
    split; [done|]. split; [done|].
    split; [unfold resolve; by destruct (startswith "http" href)|].
    split; [done|]. split; [apply sequence_id_spec|]. done.
  - intros k link Hk Ha. destruct (Hhref k link Hk) as (href & Ha' & Hd).
    rewrite Ha in Ha'. injection Ha' as <-.
    exists (py_of_document (site_file k (resolve "/document?docSeqNo=4821"))).
    split; [done|]. split; reflexivity.
Qed.

Lemma document_collection_witness :
  ∃ r item0 item1,
    scrape_with_browserless sample_world "271147" = Val r ∧
    field "documents" r = Some (PList [item0; item1]) ∧
    field "id" item0 = Some (PInt 0) ∧
    field "download_url" item0
    = Some (PStr "https://apps.dnr.wi.gov/document?docSeqNo=4821") ∧
    field "name" item0 = Some (PStr "Site File Documentation (ID: 4821)") ∧
    field "id" item1 = Some (PInt 1) ∧
    field "download_url" item1
    = Some (PStr "https://apps.dnr.wi.gov/rrbotw/download-document/7") ∧
    field "name" item1 = Some (PStr "Site File Documentation (ID: 1)") ∧
    field "category" item1 = Some (PStr "Site File") ∧
    field "comment" item1 = Some (PStr "DNR site documentation").
Proof.
  assert (Hs : success_path sample_world "271147") by on_success_path.
  destruct (document_collection sample_world "271147"
              {| status_code := 200; text := "<html></html>" |} Hs eq_refl)
    as (r & items & H1 & H2 & _).
  vm_compute in H1. injection H1 as <-.
  vm_compute in H2. injection H2 as <-.
  eexists _, _, _. split; [vm_compute; reflexivity|].
  split; [vm_compute; reflexivity|].
  repeat split; vm_compute; reflexivity.
Defined.

(** C5, as the claim has it, fails: a relative link that begins with
    the letters http is taken for an absolute one and is stored as it
    is, without the host. *)
Lemma relative_link_is_not_resolved :
  is_relative_url "httpdocs/download-document/7" ∧
  ∃ r item,
    scrape_with_browserless relative_world "271147" = Val r ∧
    field "error" r = Some PNone ∧
    field "documents" r = Some (PList [item]) ∧
    field "download_url" item = Some (PStr "httpdocs/download-document/7").
Proof.
  split; [reflexivity|]. eexists _, _.
  split; [vm_compute; reflexivity|]. split; [reflexivity|].
  split; [vm_compute; reflexivity|]. vm_compute. reflexivity.
Qed.

Lemma result_log rq st :
  result (log_request rq st) (summary_of (log_request rq st)) PNone
  = result st (summary_of st) PNone.
Proof. reflexivity. Qed.

(** C9: the Result of a page that parses is a function of the
    identifier and of the HTML alone: two calls that get the same HTML,
    whatever else differs between them (the credential, the request
    that went out), hand back the same record, which is the one
    [extract] computes from the fresh containers. *)
Theorem parsing_is_deterministic (w1 w2 : World) (dsn : string)
    (response1 response2 : Response) :
  success_path w1 dsn →
  success_path w2 dsn →
  requests_post w1 (render_request w1 dsn) = inr response1 →
  requests_post w2 (render_request w2 dsn) = inr response2 →
  text response1 = text response2 →
  BeautifulSoup w1 = BeautifulSoup w2 →
  let st := extract (BeautifulSoup w1 (text response1)) (initial dsn) in
  scrape_with_browserless w1 dsn = Val (result st (summary_of st) PNone) ∧
  scrape_with_browserless w2 dsn = scrape_with_browserless w1 dsn.
Proof.
  intros Hs1 Hs2 Hp1 Hp2 Ht Hb st.
  rewrite (scrape_success w1 dsn response1 Hs1 Hp1).
  rewrite (scrape_success w2 dsn response2 Hs2 Hp2).
  rewrite <- Hb, <- Ht. by rewrite !extract_log, !result_log.
Qed.

Lemma parsing_is_deterministic_witness :
  scrape_with_browserless other_world "271147"
  = scrape_with_browserless sample_world "271147".
Proof.
  apply (parsing_is_deterministic sample_world other_world "271147"
           {| status_code := 200; text := "<html></html>" |}
           {| status_code := 200; text := "<html></html>" |}).
  - on_success_path.
  - on_success_path.
  - reflexivity.
  - reflexivity.
  - reflexivity.
  - reflexivity.
Defined.

Lemma parse_page_early w html st e st' :
  clean_after_header w →
  parse_page w html st = (Raise e, st') → st' = st.
Proof.
  intros (H3 & H4 & H5 & H6 & H7).
  destruct (fault w at_parse) as [e1|] eqn:F1.
  { unfold parse_page. rewrite (bind_call_fault _ _ _ _ _ _ F1). congruence. }
  destruct (fault w at_header) as [e2|] eqn:F2.
  { unfold parse_page. rewrite bind_call_clean by done. cbn zeta.
    rewrite (bind_call_fault _ _ _ _ _ _ F2). congruence. }
  destruct (parse_page_cases w html st) as [[_ ->]|[Hn _]]; [done|].
  destruct Hn. by repeat split.
Qed.

(** C2, as the code has it: a failure Result carries the containers of
    lines 23-25 untouched whenever no library call fails after the
    header search, that is when the credential is missing, the request
    fails or times out, the status is not 200, or the soup or the
    header search fails. *)
Theorem early_failure_is_sentinel (w : World) (dsn : string) (r : pyval) :
  clean_after_header w →
  scrape_with_browserless w dsn = Val r →
  field "error" r ≠ Some PNone →
  sentinel dsn r.
Proof.
  intros Hc Hr He. unfold scrape_with_browserless in Hr.
  destruct (decide (BROWSERLESS_API_KEY w = "")) as [Hk|Hk].
  { rewrite run_no_key in Hr by done. injection Hr as <-.
    by apply initial_sentinel. }
  destruct (requests_post w (render_request w dsn)) as [e|response] eqn:Hp.
  { rewrite (run_raise w dsn e) in Hr by done.
    destruct (handler_result e (log_request (render_request w dsn) (initial dsn)))
      as [(s & msg & Hh)|(name & -> & Hh)]; rewrite Hh in Hr; [|done].
    injection Hr as <-. by apply initial_sentinel. }
  destruct (decide (status_code response = 200%Z)) as [Hs|Hs].
  2:{ rewrite (run_status w dsn response) in Hr by done. injection Hr as <-.
      by apply initial_sentinel. }
  rewrite (run_page w dsn response) in Hr by done. unfold try_except in Hr.
  destruct (parse_page w (text response)
              (log_request (render_request w dsn) (initial dsn)))
    as [[r'|e] st'] eqn:Hparse.
  - destruct (parse_page_cases w (text response)
                (log_request (render_request w dsn) (initial dsn)))
      as [[_ Heq]|[_ (e & st'' & Heq & _)]]; rewrite Heq in Hparse; [|done].
    injection Hparse as <- <-. injection Hr as <-. by destruct He.
  - apply parse_page_early in Hparse as ->; [|done].
    destruct (handler_result e (log_request (render_request w dsn) (initial dsn)))
      as [(s & msg & Hh)|(name & -> & Hh)]; rewrite Hh in Hr; [|done].
    injection Hr as <-. by apply initial_sentinel.
Qed.

Lemma early_failure_is_sentinel_witness :
  sentinel "271147"
    (result (log_request (render_request timeout_world "271147") (initial "271147"))
       "Page load timed out" (PStr "Request timed out")).
Proof.
  apply (early_failure_is_sentinel timeout_world "271147").
  - by repeat split.
  - reflexivity.
  - discriminate.
Defined.

(** C2, as the claim has it, fails: when a library call fails after the
    header was recorded, the [except] clause returns the very
    [site_info] the header step has already written to. *)
Lemma late_failure_exposes_header_fields :
  ∃ r, scrape_with_browserless broken_world "271147" = Val r ∧
       field "error" r = Some (PStr "library failure") ∧
       field "site_info" r
       = Some (PDict (<["location_name" := PStr "EXAMPLE SITE NAME"]>
                     (<["activity_number" := PStr "27-11-47"]>
                     {["dsn" := PStr "271147"]}))) ∧
       ¬ sentinel "271147" r.
Proof.
  eexists. split; [reflexivity|]. split; [reflexivity|].
  split; [vm_compute; reflexivity|].
  intros [H _]. vm_compute in H. discriminate H.
Qed.

End claims.

(** * Further properties *)

(** ** Where a call can stop *)

Section reachable_facts.

Context (w : World) (dsn : string).

Lemma handler_outcome e st :
  raised w dsn e →
  run w dsn = handler e st →
  snd (run w dsn) = st ∧
  ((∃ summary error, fst (run w dsn) = Val (result st summary error))
   ∨ propagates w dsn).
Proof.
  intros Hr Hrun.
  destruct (handler_result e st) as [(s & msg & He)|(name & -> & He)].
  - rewrite Hrun, He. split; [done|]. left. by exists s, (PStr msg).
  - split; [by rewrite Hrun, He|]. right. exists name. split; [|done].
    unfold scrape_with_browserless. by rewrite Hrun, He.
Qed.

(** Every call stops in a reachable state, and returns a record built
    from that state unless an exception outside [Exception] leaves the
    function. *)
Lemma run_reachable :
  ∃ st, snd (run w dsn) = st ∧ reachable w dsn st ∧
        ((∃ summary error, fst (run w dsn) = Val (result st summary error))
         ∨ propagates w dsn).
Proof.
  destruct (decide (BROWSERLESS_API_KEY w = "")) as [Hk|Hk].
  { exists (initial dsn). rewrite run_no_key by done.
    split; [done|]. split; [by left|]. left. by eexists _, _. }
  destruct (requests_post w (render_request w dsn)) as [e|response] eqn:Hp.
  { exists (requested w dsn).
    destruct (handler_outcome e (requested w dsn)) as [Hsnd Hfst].
    - by left.
    - by apply run_raise.
    - split; [done|]. split; [|done]. right. split; [done|by left]. }
  destruct (decide (status_code response = 200%Z)) as [Hs|Hs].
  2:{ exists (requested w dsn). rewrite (run_status w dsn response) by done.
      split; [done|]. split; [right; split; [done|by left]|].
      left. by eexists _, _. }
  destruct (parse_page_cases w (text response) (requested w dsn)) as [[Hc _]|[Hc _]].
  - eexists. rewrite (run_success w dsn response) by done.
    split; [done|]. split.
    + right. split; [done|]. right. exists response.
      split; [done|]. split; [done|]. apply left_behind_extract.
    + left. by eexists _, _.
  - destruct (run_page_failure w dsn response) as (e & st & Hl & Hf & Hrun); [done..|].
    exists st. destruct (handler_outcome e st) as [Hsnd Hfst]; [by right|done|].
    split; [done|]. split; [|done].
    right. split; [done|]. right. by exists response.
Qed.

End reachable_facts.

(** A property of the containers that the fresh containers have and
    that every stage keeps holds in every reachable state. *)
Section invariants.

Context (Inv : State → Prop).
Context (Inv_log : ∀ rq st, Inv st → Inv (log_request rq st)).
Context (Inv_header : ∀ text st, Inv st → Inv (header_step (search header_re text) st)).
Context (Inv_fields : ∀ inputs st, Inv st → Inv (fields_step (input_values inputs) st)).
Context (Inv_risk : ∀ text st, Inv st → Inv (risk_step text st)).
Context (Inv_link : ∀ link st, Inv st → Inv (link_step link st)).

Lemma collect_links_invariant links st : Inv st → Inv (collect_links links st).
Proof.
  revert st. induction links as [|link links IH]; intros st H; [done|].
  simpl. apply IH. by apply Inv_link.
Qed.

Lemma left_behind_invariant soup st st' :
  Inv st → left_behind soup st st' → Inv st'.
Proof.
  intros H [->|[->|[->|[n ->]]]]; [done|by apply Inv_header| |].
  - by apply Inv_fields, Inv_header.
  - by apply collect_links_invariant, Inv_risk, Inv_fields, Inv_header.
Qed.

Lemma reachable_invariant w dsn st :
  Inv (initial dsn) → reachable w dsn st → Inv st.
Proof.
  intros H [[_ ->]|[_ [->|(response & _ & _ & Hl)]]]; [done| |].
  - by apply Inv_log.
  - apply (left_behind_invariant _ _ _ (Inv_log _ _ H) Hl).
Qed.

End invariants.

(** ** The paths that fail before the page is looked at *)

Section failure_paths.

Context (w : World) (dsn : string).

(** The five ways a call can go. *)
Lemma run_cases :
  (BROWSERLESS_API_KEY w = "" ∧
   run w dsn
   = (Val (result (initial dsn) "Browserless API key required for full scraping."
             (PStr "BROWSERLESS_API_KEY not set. Add it to environment variables.")),
      initial dsn))
  ∨ (BROWSERLESS_API_KEY w ≠ "" ∧
     ∃ e, requests_post w (render_request w dsn) = inl e ∧
          run w dsn = handler e (requested w dsn))
  ∨ (BROWSERLESS_API_KEY w ≠ "" ∧
     ∃ response,
       requests_post w (render_request w dsn) = inr response ∧
       status_code response ≠ 200%Z ∧
       run w dsn
       = (Val (result (requested w dsn)
                 ("Failed to render page: " ++ str_take 200 (text response))
                 (PStr ("Browserless API error: " ++ str_of_Z (status_code response)))),
          requested w dsn))
  ∨ (success_path w dsn ∧
     ∃ response,
       requests_post w (render_request w dsn) = inr response ∧
       let st := extract (BeautifulSoup w (text response)) (requested w dsn) in
       run w dsn = (Val (result st (summary_of st) PNone), st))
  ∨ (BROWSERLESS_API_KEY w ≠ "" ∧
     ∃ response e st,
       requests_post w (render_request w dsn) = inr response ∧
       status_code response = 200%Z ∧
       left_behind (BeautifulSoup w (text response)) (requested w dsn) st ∧
       run w dsn = handler e st).
Proof.
  destruct (decide (BROWSERLESS_API_KEY w = "")) as [Hk|Hk].
  { left. split; [done|]. by apply run_no_key. }
  right.
  destruct (requests_post w (render_request w dsn)) as [e|response] eqn:Hp.
  { left. split; [done|]. exists e. split; [done|]. by apply run_raise. }
  right.
  destruct (decide (status_code response = 200%Z)) as [Hs|Hs].
  2:{ left. split; [done|]. exists response. split; [done|]. split; [done|].
      by apply run_status. }
  right.
  destruct (parse_page_cases w (text response) (requested w dsn)) as [[Hc _]|[Hc _]].
  - left. split; [split; [done|by exists response]|].
    exists response. split; [done|]. by apply (run_success w dsn response).
  - right. split; [done|].
    destruct (run_page_failure w dsn response) as (e & st & Hl & _ & Hr); [done..|].
    by exists response, e, st.
Qed.

Lemma str_take_prefix n s : ∃ t, s = str_take n s ++ t.
Proof.
  unfold str_take. revert s. induction n as [|n IH]; intros s.
  - exists s. by destruct s.
  - destruct s as [|c s]; [by exists ""|].
    destruct (IH s) as [t Ht]. exists t. simpl.
    change (String c ?a ++ t) with (String c (a ++ t)). by rewrite <- Ht.
Qed.

Lemma str_take_length n s :
  String.length (str_take n s) = Nat.min n (String.length s).
Proof.
  unfold str_take. revert s. induction n as [|n IH]; intros s.
  - by destruct s.
  - destruct s as [|c s]; [done|]. simpl. by rewrite IH.
Qed.

(** X1: a response whose status is not 200 is never parsed: the Result
    names the status in [error], quotes at most the first 200
    characters of the body in [summary], and hands back the containers
    of lines 23-25; the one request went out. *)
Theorem bad_status_reported (response : Response) :
  BROWSERLESS_API_KEY w ≠ "" →
  requests_post w (render_request w dsn) = inr response →
  status_code response ≠ 200%Z →
  ∃ r body rest,
    scrape_with_browserless w dsn = Val r ∧
    field "error" r
    = Some (PStr ("Browserless API error: " ++ str_of_Z (status_code response))) ∧
    field "summary" r = Some (PStr ("Failed to render page: " ++ body)) ∧
    text response = body ++ rest ∧
    String.length body = Nat.min 200 (String.length (text response)) ∧
    sentinel dsn r ∧
    requests_sent w dsn = [render_request w dsn].
Proof.
  intros Hk Hp Hs.
  destruct (str_take_prefix 200 (text response)) as [rest Hrest].
  eexists _, (str_take 200 (text response)), rest.
  unfold scrape_with_browserless, requests_sent.
  rewrite (run_status w dsn response) by done. simpl.
  split; [done|]. split; [done|]. split; [done|]. split; [done|].
  split; [apply str_take_length|]. split; [by apply initial_sentinel|done].
Qed.

(** X2: when [requests.post] raises anything but a timeout, the Result
    carries the text of the exception in [error], the same text after
    "Error: " in [summary], and the containers of lines 23-25. *)
Theorem request_failure_reported (msg : string) :
  BROWSERLESS_API_KEY w ≠ "" →
  requests_post w (render_request w dsn) = inl (Error msg) →
  ∃ r, scrape_with_browserless w dsn = Val r ∧
       field "error" r = Some (PStr msg) ∧
       field "summary" r = Some (PStr ("Error: " ++ msg)) ∧
       sentinel dsn r ∧
       requests_sent w dsn = [render_request w dsn].
Proof.
  intros Hk Hp. unfold scrape_with_browserless, requests_sent.
  rewrite (run_raise w dsn (Error msg)) by done. simpl.
  eexists. split; [done|]. split; [done|]. split; [done|].
  split; [by apply initial_sentinel|done].
Qed.

(** X3: a failure Result pairs [error] and [summary] in one of four
    ways: the two fixed texts of the missing credential, the two fixed
    texts of the timeout, the status with the quoted body, or the text
    of an exception with "Error: " before it. *)
Theorem failure_messages (r : pyval) :
  scrape_with_browserless w dsn = Val r →
  field "error" r ≠ Some PNone →
  (BROWSERLESS_API_KEY w = "" ∧
   field "error" r
   = Some (PStr "BROWSERLESS_API_KEY not set. Add it to environment variables.") ∧
   field "summary" r = Some (PStr "Browserless API key required for full scraping."))
  ∨ (BROWSERLESS_API_KEY w ≠ "" ∧
     field "error" r = Some (PStr "Request timed out") ∧
     field "summary" r = Some (PStr "Page load timed out"))
  ∨ (BROWSERLESS_API_KEY w ≠ "" ∧
     ∃ response,
       requests_post w (render_request w dsn) = inr response ∧
       status_code response ≠ 200%Z ∧
       field "error" r
       = Some (PStr ("Browserless API error: " ++ str_of_Z (status_code response))) ∧
       field "summary" r
       = Some (PStr ("Failed to render page: " ++ str_take 200 (text response))))
  ∨ (BROWSERLESS_API_KEY w ≠ "" ∧
     ∃ msg, field "error" r = Some (PStr msg) ∧
            field "summary" r = Some (PStr ("Error: " ++ msg))).
Proof.
  unfold scrape_with_browserless. intros Hr He.
  assert (Hh : ∀ e st, fst (handler e st) = Val r →
            field "error" r = Some (PStr "Request timed out") ∧
            field "summary" r = Some (PStr "Page load timed out")
            ∨ ∃ msg, field "error" r = Some (PStr msg) ∧
                     field "summary" r = Some (PStr ("Error: " ++ msg))).
  { intros [|msg|name] st; simpl; [intros [= <-]; by left| |done].
    intros [= <-]. right. by exists msg. }
  destruct run_cases
    as [[Hk Hrun]|[[Hk (e & _ & Hrun)]|[[Hk (response & Hp & Hs & Hrun)]
       |[[_ (response & _ & Hrun)]|[Hk (response & e & st & _ & _ & _ & Hrun)]]]]];
    rewrite Hrun in Hr.
  - injection Hr as <-. by left.
  - right. destruct (Hh e _ Hr) as [[? ?]|?]; [left|do 2 right]; done.
  - injection Hr as <-. do 2 right. left. split; [done|]. by exists response.
  - injection Hr as <-. by destruct He.
  - right. destruct (Hh e _ Hr) as [[? ?]|?]; [left|do 2 right]; done.
Qed.

Lemma network_use_cases :
  (BROWSERLESS_API_KEY w = "" ∧ requests_sent w dsn = [])
  ∨ (BROWSERLESS_API_KEY w ≠ "" ∧ requests_sent w dsn = [render_request w dsn]).
Proof.
  destruct (run_reachable w dsn) as (st & Hsnd & Hreach & _).
  unfold requests_sent. rewrite Hsnd.
  destruct Hreach as [[Hk ->]|[Hk [->|(response & _ & _ & Hl)]]].
  - by left.
  - by right.
  - right. split; [done|]. by destruct (left_behind_dsn _ _ _ Hl) as [_ ->].
Qed.

(** X4: the network is used exactly when a credential is configured,
    and then for the one request of lines 54-59, whatever happens
    afterwards: the request is not repeated after a failure. *)
Theorem network_use :
  (requests_sent w dsn = [] ↔ BROWSERLESS_API_KEY w = "") ∧
  (requests_sent w dsn = [render_request w dsn] ↔ BROWSERLESS_API_KEY w ≠ "").
Proof.
  destruct network_use_cases as [[Hk Hs]|[Hk Hs]]; rewrite Hs.
  - split; [done|]. split; [done|]. intros H. by destruct H.
  - split; [split; [done|by intros ?]|done].
Qed.

End failure_paths.

Lemma bad_status_reported_witness :
  ∃ r body rest,
    scrape_with_browserless unavailable_world "271147" = Val r ∧
    field "error" r = Some (PStr "Browserless API error: 503") ∧
    field "summary" r = Some (PStr ("Failed to render page: " ++ body)) ∧
    "Service Unavailable" = body ++ rest ∧
    String.length body = 19%nat ∧
    sentinel "271147" r ∧
    requests_sent unavailable_world "271147"
    = [render_request unavailable_world "271147"].
Proof.
  apply (bad_status_reported unavailable_world "271147"
           {| status_code := 503; text := "Service Unavailable" |}).
  - has_key.
  - reflexivity.
  - discriminate.
Defined.

Lemma request_failure_reported_witness :
  ∃ r, scrape_with_browserless refused_world "271147" = Val r ∧
       field "error" r = Some (PStr "Connection refused") ∧
       field "summary" r = Some (PStr "Error: Connection refused") ∧
       sentinel "271147" r ∧
       requests_sent refused_world "271147" = [render_request refused_world "271147"].
Proof.
  apply (request_failure_reported refused_world "271147" "Connection refused").
  - has_key.
  - reflexivity.
Defined.

Lemma failure_messages_witness :
  let r := result (requested refused_world "271147")
             "Error: Connection refused" (PStr "Connection refused") in
  BROWSERLESS_API_KEY refused_world ≠ "" ∧
  ∃ msg, field "error" r = Some (PStr msg) ∧
         field "summary" r = Some (PStr ("Error: " ++ msg)).
Proof.
  intros r.
  destruct (failure_messages refused_world "271147"
              (result (requested refused_world "271147")
                 "Error: Connection refused" (PStr "Connection refused"))
              eq_refl ltac:(discriminate))
    as [[Hk _]|[[_ [He _]]|[(_ & response & Hp & _)|H]]].
  - vm_compute in Hk. discriminate Hk.
  - discriminate He.
  - discriminate Hp.
  - exact H.
Defined.

(** ** More on strings *)

Section more_string_facts.

Lemma all_chars_app p a b :
  all_chars p (a ++ b) = all_chars p a && all_chars p b.
Proof.
  induction a as [|c a IH]; [done|].
  change (String c a ++ b) with (String c (a ++ b)). simpl.
  by rewrite IH, andb_assoc.
Qed.

Lemma all_chars_impl (p q : ascii → bool) s :
  (∀ c, p c = true → q c = true) → all_chars p s = true → all_chars q s = true.
Proof.
  intros Hpq. induction s as [|c s IH]; [done|]. simpl.
  rewrite !andb_true_iff. intros [? ?]. split; [by apply Hpq|by apply IH].
Qed.

Lemma lstrip_idem s : lstrip (lstrip s) = lstrip s.
Proof.
  induction s as [|c s IH]; [done|]. simpl.
  destruct (is_space c) eqn:E; [done|]. simpl. by rewrite E.
Qed.

Lemma rstrip_cons c s :
  is_space c = false → rstrip (String c s) = String c (rstrip s).
Proof. intros E. simpl. rewrite E. by destruct (rstrip s). Qed.

Lemma rstrip_idem s : rstrip (rstrip s) = rstrip s.
Proof.
  induction s as [|c s IH]; [done|]. simpl.
  destruct (rstrip s) as [|d t] eqn:E.
  - destruct (is_space c) eqn:Ec; [done|]. simpl. by rewrite Ec.
  - change (rstrip (String c (String d t))
            = String c (String d t)).
    simpl. simpl in IH. by destruct (rstrip t); rewrite IH.
Qed.

Lemma lstrip_rstrip s : lstrip s = s → lstrip (rstrip s) = rstrip s.
Proof.
  destruct s as [|c s]; [done|]. simpl.
  destruct (is_space c) eqn:E.
  - intros H. exfalso.
    assert (Hlen : ∀ u, (String.length (lstrip u) <= String.length u)%nat).
    { induction u as [|d u IH]; [done|]. simpl. destruct (is_space d); simpl; lia. }
    specialize (Hlen s). rewrite H in Hlen. simpl in Hlen. lia.
  - intros _. destruct (rstrip s); simpl; by rewrite E.
Qed.

(** What [strip] returns has nothing left to strip. *)
Lemma strip_idem s : strip (strip s) = strip s.
Proof.
  unfold strip. rewrite lstrip_rstrip by apply lstrip_idem.
  apply rstrip_idem.
Qed.

Lemma strip_cons c s :
  is_space c = false → strip (String c s) = String c (rstrip s).
Proof. intros E. unfold strip. simpl. rewrite E. by apply rstrip_cons. Qed.

Lemma all_chars_rstrip p s : all_chars p s = true → all_chars p (rstrip s) = true.
Proof.
  induction s as [|c s IH]; [done|]. simpl.
  rewrite andb_true_iff. intros [Hc Hs]. specialize (IH Hs).
  destruct (rstrip s) as [|d t].
  - destruct (is_space c); [done|]. simpl. by rewrite Hc.
  - simpl in *. by rewrite Hc, IH.
Qed.

Lemma rstrip_no_space s :
  all_chars (fun c => negb (is_space c)) s = true → rstrip s = s.
Proof.
  induction s as [|c s IH]; [done|]. simpl.
  rewrite andb_true_iff, negb_true_iff. intros [Hc Hs].
  rewrite IH by done. rewrite Hc. by destruct s.
Qed.

Lemma strip_no_space s :
  all_chars (fun c => negb (is_space c)) s = true → strip s = s.
Proof.
  intros H. unfold strip.
  assert (lstrip s = s) as ->; [|by apply rstrip_no_space].
  destruct s as [|c s]; [done|]. simpl in *.
  apply andb_true_iff in H as [Hc _]. apply negb_true_iff in Hc. by rewrite Hc.
Qed.

Lemma upper_not_space c : is_upper c = true → is_space c = false.
Proof. destruct c as [[] [] [] [] [] [] [] []]; by compute. Qed.

Lemma digit_not_space c : is_digit c = true → is_space c = false.
Proof. destruct c as [[] [] [] [] [] [] [] []]; by compute. Qed.

Lemma to_upper_not_lower c : is_lower (to_upper c) = false.
Proof. destruct c as [[] [] [] [] [] [] [] []]; reflexivity. Qed.

Lemma upper_no_lower s : all_chars (fun c => negb (is_lower c)) (upper s) = true.
Proof.
  induction s as [|c s IH]; [done|]. unfold upper in *. simpl.
  by rewrite to_upper_not_lower, IH.
Qed.

Lemma lower_app a b : lower (a ++ b) = lower a ++ lower b.
Proof.
  induction a as [|c a IH]; [done|]. unfold lower in *.
  change (String c a ++ b) with (String c (a ++ b)). simpl. by rewrite IH.
Qed.

Lemma str_of_nat_nonempty n : str_of_nat n ≠ "".
Proof.
  unfold str_of_nat, NilZero.string_of_uint.
  destruct (Nat.to_uint n); done.
Qed.

End more_string_facts.

(** ** What the header pattern can match *)

Section header_facts.

Lemma search_inv r s m :
  search r s = Some m → ∃ pre s', s = pre ++ s' ∧ rmatch r 0 s' [] accept = Some m.
Proof.
  induction s as [|c s IH]; rewrite search_unfold.
  - destruct (rmatch r 0 "" [] accept) eqn:E; [|done].
    intros [= <-]. by exists "", "".
  - destruct (rmatch r 0 (String c s) [] accept) eqn:E.
    + intros [= <-]. by exists "", (String c s).
    + intros H. destruct (IH H) as (pre & s' & -> & Hm).
      by exists (String c pre), s'.
Qed.

Lemma rmatch_Cat r1 r2 pos s caps k :
  rmatch (Cat r1 r2) pos s caps k
  = rmatch r1 pos s caps (fun pos' s' caps' => rmatch r2 pos' s' caps' k).
Proof. reflexivity. Qed.

Lemma rmatch_Grp n r pos s caps k :
  rmatch (Grp n r) pos s caps k
  = rmatch r pos s caps (fun pos' s' caps' =>
      k pos' s' ((n, substring 0 (pos' - pos) s) :: caps')).
Proof. reflexivity. Qed.

Lemma rmatch_Rep g r pos s caps k :
  rmatch (Rep g r) pos s caps k = rep_loop (rmatch r) g k (String.length s) pos s caps.
Proof. reflexivity. Qed.

Lemma rmatch_class_inv p pos s caps k c :
  rmatch (Class p) pos s caps k = Some c →
  ∃ ch s', s = String ch s' ∧ p ch = true ∧ k (S pos) s' caps = Some c.
Proof.
  destruct s as [|ch s']; [done|]. simpl.
  destruct (p ch) eqn:E; [|done]. intros H. by exists ch, s'.
Qed.

(** A repetition over one class, greedy or lazy, hands over after some
    run of characters of the class. *)
Lemma rep_class_inv p g k fuel pos s caps c :
  rep_loop (rmatch (Class p)) g k fuel pos s caps = Some c →
  ∃ t s', s = t ++ s' ∧ all_chars p t = true ∧
          k (pos + String.length t)%nat s' caps = Some c.
Proof.
  revert pos s. induction fuel as [|fuel IH]; intros pos s.
  - simpl. intros H. exists "", s. by rewrite Nat.add_0_r.
  - cbn [rep_loop].
    assert (Hstop : k pos s caps = Some c →
              ∃ t s', s = t ++ s' ∧ all_chars p t = true ∧
                      k (pos + String.length t)%nat s' caps = Some c).
    { intros H. exists "", s. by rewrite Nat.add_0_r. }
    assert (Hmore : rmatch (Class p) pos s caps
                      (fun pos' s' caps' =>
                         if (pos <? pos')%nat
                         then rep_loop (rmatch (Class p)) g k fuel pos' s' caps'
                         else None) = Some c →
              ∃ t s', s = t ++ s' ∧ all_chars p t = true ∧
                      k (pos + String.length t)%nat s' caps = Some c).
    { intros H. apply rmatch_class_inv in H as (ch & s1 & -> & Hch & H).
      assert ((pos <? S pos)%nat = true) as Hlt by (apply Nat.ltb_lt; lia).
      rewrite Hlt in H. apply IH in H as (t & s' & -> & Ht & H).
      exists (String ch t), s'. split; [done|]. simpl. rewrite Hch, Ht.
      split; [done|]. by replace (pos + S (String.length t))%nat
                         with (S pos + String.length t)%nat by lia. }
    destruct g.
    + destruct (rmatch (Class p) pos s caps _) eqn:E.
      * intros [= <-]. by apply Hmore.
      * apply Hstop.
    + destruct (k pos s caps) eqn:E.
      * intros [= <-]. by apply Hstop.
      * apply Hmore.
Qed.

Lemma rmatch_dollar_inv pos s caps k c :
  rmatch Dollar pos s caps k = Some c → k pos s caps = Some c.
Proof.
  destruct s as [|ch [|ch' s']]; simpl; [done| |done].
  by destruct (Ascii.eqb ch "010").
Qed.

(** What ends the header adds no group. *)
Lemma rmatch_header_end pos s caps c :
  rmatch (Or (Cat (star space) (lit "Activity Type"))
             (Cat (star space) Dollar)) pos s caps accept = Some c →
  c = caps.
Proof.
  change (rmatch (Or ?a ?b) pos s caps accept)
    with (match rmatch a pos s caps accept with
          | Some x => Some x | None => rmatch b pos s caps accept end).
  destruct (rmatch (Cat (star space) (lit "Activity Type")) pos s caps accept) eqn:E.
  - intros [= <-]. rewrite rmatch_Cat in E. unfold star in E.
    rewrite rmatch_Rep in E. apply rep_class_inv in E as (t & s' & -> & _ & E).
    destruct (rmatch_lit "Activity Type" (pos + String.length t) s' caps accept)
      as (u & -> & Hu); [by rewrite E|].
    rewrite Hu in E. unfold accept in E. congruence.
  - rewrite rmatch_Cat. unfold star. rewrite rmatch_Rep. intros H.
    apply rep_class_inv in H as (t & s' & -> & _ & H).
    apply rmatch_dollar_inv in H. unfold accept in H. congruence.
Qed.

(** A match of the header pattern: the number, whitespace, the name,
    the two of them being groups 1 and 2. *)
Lemma rmatch_header_inv s m :
  rmatch header_re 0 s [] accept = Some m →
  ∃ g1 sp g2 post,
    s = g1 ++ sp ++ g2 ++ post ∧
    activity_number_shape g1 ∧
    sp ≠ "" ∧ all_chars is_space sp = true ∧
    header_name_shape g2 ∧
    m = [(2%nat, g2); (1%nat, g1)].
Proof.
  unfold header_re, plus, plus_lazy, digit, space, chr. intros H.
  rewrite rmatch_Cat, rmatch_Grp in H.
  rewrite rmatch_Cat in H. apply rmatch_class_inv in H as (a & s1 & Hs & Ha & H).
  rewrite rmatch_Cat in H. apply rmatch_class_inv in H as (b & s2 & -> & Hb & H).
  rewrite rmatch_Cat in H. apply rmatch_class_inv in H as (x & s3 & -> & Hx & H).
  rewrite rmatch_Cat in H. apply rmatch_class_inv in H as (c & s4 & -> & Hc & H).
  rewrite rmatch_Cat in H. apply rmatch_class_inv in H as (d & s5 & -> & Hd & H).
  rewrite rmatch_Cat in H. apply rmatch_class_inv in H as (y & s6 & -> & Hy & H).
  rewrite rmatch_Cat in H. apply rmatch_class_inv in H as (e & s7 & -> & He & H).
  rewrite rmatch_Rep in H. apply rep_class_inv in H as (t & s8 & -> & Ht & H).
  apply Ascii.eqb_eq in Hx as <-. apply Ascii.eqb_eq in Hy as <-.
  cbv beta in H. subst s.
  set (g1 := String a (String b (String "-" (String c (String d (String "-" (String e t))))))).
  assert (Hg1 : substring 0 (7 + String.length t - 0)
                  (String a (String b (String "-" (String c (String d
                     (String "-" (String e (t ++ s8)))))))) = g1).
  { rewrite Nat.sub_0_r. simpl. by rewrite substring_app. }
  rewrite Hg1 in H.
  rewrite rmatch_Cat, rmatch_Cat in H.
  apply rmatch_class_inv in H as (w1 & s9 & -> & Hw1 & H).
  rewrite rmatch_Rep in H. apply rep_class_inv in H as (ws & s10 & -> & Hws & H).
  cbv beta in H. rewrite rmatch_Cat, rmatch_Grp in H.
  rewrite rmatch_Cat in H. apply rmatch_class_inv in H as (u & s11 & Hs10 & Hu & H).
  rewrite rmatch_Cat in H. apply rmatch_class_inv in H as (n & s12 & -> & Hn & H).
  rewrite rmatch_Rep in H. apply rep_class_inv in H as (t2 & s13 & -> & Ht2 & H).
  cbv beta in H. subst s10.
  match type of H with
  | rmatch _ _ _ ((_, substring 0 ?len ?str) :: _) _ = _ =>
      assert (Hg2 : substring 0 len str = String u (String n t2))
  end.
  { match goal with |- substring 0 ?len _ = _ =>
      replace len with (2 + String.length t2)%nat by lia end.
    simpl. by rewrite substring_app. }
  rewrite Hg2 in H. apply rmatch_header_end in H as ->.
  exists g1, (String w1 ws), (String u (String n t2)), s13.
  split; [done|]. split; [by exists a, b, c, d, e, t|].
  split; [done|]. split; [by simpl; rewrite Hw1, Hws|].
  split; [by exists u, n, t2|done].
Qed.

(** The same for [re.search], which may skip some text first. *)
Lemma search_header_inv s m :
  search header_re s = Some m →
  ∃ pre g1 sp g2 post,
    s = pre ++ g1 ++ sp ++ g2 ++ post ∧
    activity_number_shape g1 ∧
    sp ≠ "" ∧ all_chars is_space sp = true ∧
    header_name_shape g2 ∧
    group 1 m = g1 ∧ group 2 m = g2.
Proof.
  intros H. apply search_inv in H as (pre & s' & -> & H).
  apply rmatch_header_inv in H as (g1 & sp & g2 & post & -> & H1 & H2 & H3 & H4 & ->).
  by exists pre, g1, sp, g2, post.
Qed.

End header_facts.

(** ** What every Result has in its containers *)

Section container_invariants.

Lemma risk_flags_ok_label rf label :
  risk_flags_ok rf → label ≠ "" →
  all_chars (fun c => negb (is_lower c)) label = true →
  risk_flags_ok (<["status_label" := PStr label]> rf).
Proof.
  intros [_ Hrest] H1 H2. split.
  - exists label. by rewrite lookup_insert_eq.
  - intros key v. rewrite lookup_insert_Some. intros [[<- _]|[_ H]]; [by left|].
    by apply Hrest.
Qed.

Lemma risk_flags_ok_flag rf key :
  risk_flags_ok rf → key ∈ ["petroleum"; "pfas"; "heavy_metals"] →
  risk_flags_ok (<[key := PBool true]> rf).
Proof.
  intros [(label & Hl & Hne & Hup) Hrest] Hkey. split.
  - exists label. rewrite lookup_insert_ne; [done|].
    intros ->. apply list_elem_of_In in Hkey. simpl in Hkey.
    by destruct Hkey as [?|[?|[?|?]]].
  - intros k v. rewrite lookup_insert_Some. intros [[<- <-]|[_ H]]; [by right|].
    by apply Hrest.
Qed.

Lemma risk_step_ok page_text st :
  risk_flags_ok (risk_flags st) → risk_flags_ok (risk_flags (risk_step page_text st)).
Proof.
  intros H. unfold risk_step. cbn zeta.
  set (status := upper (default "" (site_info st !! "status"))).
  assert (Hl : risk_flags_ok
                 (<["status_label" := PStr (if truthy status then status else "UNKNOWN")]>
                    (risk_flags st))).
  { apply risk_flags_ok_label; [done| |].
    - destruct (truthy status) eqn:E; [by apply truthy_true|done].
    - destruct (truthy status); [apply upper_no_lower|done]. }
  repeat case_match; simpl;
    repeat (apply risk_flags_ok_flag; [|set_unfold; by eauto]); done.
Qed.

Lemma risk_flags_reachable w dsn st :
  reachable w dsn st → risk_flags_ok (risk_flags st).
Proof.
  apply (reachable_invariant (fun st => risk_flags_ok (risk_flags st))).
  - done.
  - intros text st' H. by destruct (header_step_frame (search header_re text) st') as (-> & _).
  - intros inputs st' H. by destruct (fields_step_frame (input_values inputs) st') as (-> & _).
  - intros text st' H. by apply risk_step_ok.
  - intros link st' H. by destruct (link_step_frame link st') as (_ & -> & _).
  - split.
    + exists "UNKNOWN". done.
    + intros key v. simpl. rewrite lookup_singleton_Some. intros [<- _]. by left.
Qed.

(** X5: on every path that returns, the [risk_flags] of the Result
    hold a [status_label] that is a non-empty string without lower-case
    letters, and besides it only [petroleum], [pfas] and [heavy_metals],
    each of them [True] when present: no flag is ever stored as
    [False].  The only calls that do not return end in an exception
    outside [Exception]. *)
Theorem risk_flags_always_well_formed (w : World) (dsn : string) :
  (∃ r rf, scrape_with_browserless w dsn = Val r ∧
           field "risk_flags" r = Some (PDict rf) ∧
           risk_flags_ok rf)
  ∨ propagates w dsn.
Proof.
  destruct (run_reachable w dsn) as (st & _ & Hreach & [(s & e & Hrun)|Hprop]);
    [left|by right].
  exists (result st s e), (risk_flags st).
  split; [done|]. split; [done|]. by apply (risk_flags_reachable w dsn).
Qed.

Lemma resolve_http href : startswith "http" (resolve href) = true.
Proof.
  unfold resolve. destruct (startswith "http" href) eqn:E; [done|]. reflexivity.
Qed.

Lemma sequence_id_nonempty count url : sequence_id count url ≠ "".
Proof.
  destruct (sequence_id_spec count url) as [(pre & d & t & _ & _ & ->)|[_ H]];
    [done|].
  intros E. rewrite E in H. discriminate H.
Qed.

Lemma site_file_ok k href : document_ok k (site_file k (resolve href)).
Proof.
  split; [done|]. split; [done|]. split; [done|].
  split; [apply resolve_http|].
  exists (sequence_id k (resolve href)). split; [apply sequence_id_nonempty|done].
Qed.

Lemma link_step_ok link st :
  (∀ k d, documents st !! k = Some d → document_ok k d) →
  ∀ k d, documents (link_step link st) !! k = Some d → document_ok k d.
Proof.
  intros H k d. unfold link_step.
  destruct (truthy (tag_get link "href" "")); [|by apply H].
  simpl. rewrite lookup_snoc_Some. intros [[_ Hk]|[<- <-]]; [by apply H|].
  apply site_file_ok.
Qed.

Lemma documents_reachable w dsn st :
  reachable w dsn st → ∀ k d, documents st !! k = Some d → document_ok k d.
Proof.
  apply (reachable_invariant
           (fun st => ∀ k d, documents st !! k = Some d → document_ok k d)).
  - done.
  - intros text st' H. by destruct (header_step_frame (search header_re text) st') as (_ & -> & _).
  - intros inputs st' H. by destruct (fields_step_frame (input_values inputs) st') as (_ & -> & _).
  - intros text st' H. by destruct (risk_step_frame text st') as (_ & -> & _).
  - apply link_step_ok.
  - done.
Qed.

Lemma py_of_document_ok k d : document_ok k d → document_dict_ok k (py_of_document d).
Proof.
  intros (Hid & Hcat & Hcom & Hurl & seq & Hseq & Hname).
  split; [apply keys_py_of_document|].
  split; [by rewrite <- Hid|]. split; [by rewrite <- Hcat|].
  split; [by rewrite <- Hcom|].
  split; [by exists (download_url d)|].
  exists seq. split; [done|]. by rewrite <- Hname.
Qed.

(** X6: on every path that returns, each entry of the [documents] of
    the Result is a dict with exactly the keys [id], [download_url],
    [category], [name] and [comment], whose [id] is its position in the
    list, whose category is "Site File", whose comment is the fixed
    one, whose [download_url] starts with [http] and whose name embeds
    a non-empty identifier.  The only calls that do not return end in
    an exception outside [Exception]. *)
Theorem documents_always_well_formed (w : World) (dsn : string) :
  (∃ r items, scrape_with_browserless w dsn = Val r ∧
              field "documents" r = Some (PList items) ∧
              ∀ k v, items !! k = Some v → document_dict_ok k v)
  ∨ propagates w dsn.
Proof.
  destruct (run_reachable w dsn) as (st & _ & Hreach & [(s & e & Hrun)|Hprop]);
    [left|by right].
  exists (result st s e), (py_of_document <$> documents st).
  split; [done|]. split; [done|].
  intros k v. rewrite list_lookup_fmap.
  destruct (documents st !! k) as [d|] eqn:Hd; [|done]. intros [= <-].
  apply py_of_document_ok. by apply (documents_reachable w dsn st).
Qed.

Lemma imap_take {A B} (f : nat → A → B) n (l : list A) :
  imap f (take n l) = take n (imap f l).
Proof.
  apply list_eq. intros i. rewrite list_lookup_imap.
  destruct (decide (i < n)%nat) as [Hi|Hi].
  - by rewrite !lookup_take_lt, list_lookup_imap by done.
  - by rewrite !lookup_take_ge by lia.
Qed.

Lemma left_behind_documents soup st st' :
  documents st = [] → left_behind soup st st' →
  ∃ n, documents st' = take n (all_documents soup).
Proof.
  intros Hd.
  set (st1 := header_step (search header_re (get_text soup)) st).
  set (st2 := fields_step (input_values (find_all_inputs soup)) st1).
  set (st3 := risk_step (get_text soup) st2).
  assert (H1 : documents st1 = []).
  { destruct (header_step_frame (search header_re (get_text soup)) st) as (_ & H & _).
    unfold st1. by rewrite H. }
  assert (H2 : documents st2 = []).
  { destruct (fields_step_frame (input_values (find_all_inputs soup)) st1)
      as (_ & H & _). unfold st2. by rewrite H. }
  assert (H3 : documents st3 = []).
  { destruct (risk_step_frame (get_text soup) st2) as (_ & H & _).
    unfold st3. by rewrite H. }
  intros [->|[->|[->|[n ->]]]].
  - exists 0%nat. by rewrite Hd.
  - exists 0%nat. fold st1. by rewrite H1.
  - exists 0%nat. fold st1 st2. by rewrite H2.
  - exists n. fold st1 st2 st3. rewrite collect_links_documents.
    + rewrite H3. simpl. unfold all_documents. apply imap_take.
    + apply Forall_forall. intros link Hin.
      apply (proj1 (Forall_forall _ _) (find_all_links_href soup)).
      by apply (subseteq_take n).
Qed.

(** X7: whatever fails after a 200 response, the documents of the
    Result are the first few of those the page would give without the
    failure, in the same order: a failure cuts the list short and does
    nothing else to it.  The only calls that return no Result end in an
    exception outside [Exception]. *)
Theorem documents_are_a_prefix (w : World) (dsn : string) (response : Response) :
  BROWSERLESS_API_KEY w ≠ "" →
  requests_post w (render_request w dsn) = inr response →
  (∃ r docs n,
     scrape_with_browserless w dsn = Val r ∧
     field "documents" r = Some (PList (py_of_document <$> docs)) ∧
     docs = take n (all_documents (BeautifulSoup w (text response))) ∧
     (field "error" r = Some PNone →
      docs = all_documents (BeautifulSoup w (text response))))
  ∨ propagates w dsn.
Proof.
  intros Hk Hp.
  destruct (run_reachable w dsn) as (st' & Hsnd & _ & Hout).
  destruct (run_cases w dsn)
    as [[Hk' _]|[[_ (e & Hp' & _)]|[[_ (resp & Hp' & Hs & Hrun)]
       |[[_ (resp & Hp' & Hrun)]|[_ (resp & e & st & Hp' & Hs & Hl & Hrun)]]]]];
    [done|congruence| | |]; rewrite Hp in Hp'; injection Hp' as <-;
    [left; unfold scrape_with_browserless; rewrite Hrun..|].
  - exists (result (requested w dsn)
              ("Failed to render page: " ++ str_take 200 (text response))
              (PStr ("Browserless API error: " ++ str_of_Z (status_code response)))),
      [], 0%nat.
    split; [done|]. split; [done|]. split; [done|]. intros [=].
  - set (soup := BeautifulSoup w (text response)) in *.
    exists (result (extract soup (requested w dsn))
              (summary_of (extract soup (requested w dsn))) PNone),
      (documents (extract soup (requested w dsn))), (length (all_documents soup)).
    split; [done|]. split; [done|].
    rewrite extract_documents by done. fold (all_documents soup).
    split; [by rewrite firstn_all|done].
  - destruct Hout as [(s & err & Hfst)|Hprop]; [left|by right].
    destruct (handler_result e st) as [(s' & msg & He)|(name & -> & He)];
      rewrite Hrun, He in Hfst, Hsnd; [|done].
    simpl in Hsnd. subst st'. injection Hfst as Hres.
    destruct (left_behind_documents _ (requested w dsn) st eq_refl Hl) as [n Hn].
    exists (result st s' (PStr msg)), (documents st), n.
    unfold scrape_with_browserless. rewrite Hrun, He.
    split; [done|]. split; [done|]. split; [done|]. intros [=].
Qed.

End container_invariants.

(** ** What [site_info] can hold *)

Section site_info_invariants.

(** An entry of [site_info]: a known key, and under every key but
    [dsn] a non-empty value with nothing left to strip. *)
Let entry_ok (k s : string) : Prop :=
  k ∈ site_info_keys ∧ (k ≠ "dsn" → s ≠ "" ∧ strip s = s).

Let entries_ok (st : State) : Prop :=
  ∀ k s, site_info st !! k = Some s → entry_ok k s.

Lemma field_name_is_key key : key ∈ field_names → key ∈ site_info_keys.
Proof.
  intros H. unfold site_info_keys. apply elem_of_union_r.
  by apply elem_of_list_to_set.
Qed.

Lemma activity_number_clean s :
  activity_number_shape s → s ≠ "" ∧ strip s = s.
Proof.
  intros (a & b & c & d & e & t & -> & Ha & Hb & Hc & Hd & He & Ht).
  split; [done|]. apply strip_no_space. simpl.
  rewrite (digit_not_space a Ha), (digit_not_space b Hb), (digit_not_space c Hc),
    (digit_not_space d Hd), (digit_not_space e He). simpl.
  apply (all_chars_impl is_digit); [|done].
  intros ch Hch. by rewrite (digit_not_space ch Hch).
Qed.

Lemma header_name_clean s :
  header_name_shape s →
  ∃ u rest, strip s = String u rest ∧ is_upper u = true ∧
            all_chars name_char rest = true.
Proof.
  intros (u & n & t & -> & Hu & Hn & Ht).
  exists u, (rstrip (String n t)).
  split; [by apply strip_cons, upper_not_space|]. split; [done|].
  apply all_chars_rstrip. simpl. by rewrite Hn, Ht.
Qed.

Lemma header_step_entries text st :
  entries_ok st → entries_ok (header_step (search header_re text) st).
Proof.
  intros H. destruct (search header_re text) as [m|] eqn:E; [|done].
  destruct (search_header_inv text m E)
    as (pre & g1 & sp & g2 & post & _ & H1 & _ & _ & H2 & <- & <-).
  intros k s. simpl. rewrite !lookup_insert_Some.
  intros [[<- <-]|[_ [[<- <-]|[_ Hs]]]]; [| |by apply H].
  - split; [apply field_name_is_key, (bool_decide_unpack _); vm_compute; reflexivity|].
    intros _. destruct (header_name_clean (group 2 m) H2) as (u & rest & Hu & _).
    split; [by rewrite Hu|apply strip_idem].
  - split; [apply (bool_decide_unpack _); vm_compute; reflexivity|]. intros _.
    by apply activity_number_clean.
Qed.

Lemma field_step_entries values st item :
  Forall (fun v => strip v = v) values → item.2 ∈ field_names →
  entries_ok st → entries_ok (field_step values st item).
Proof.
  intros Hv Hkey H. destruct item as [idx key]. unfold field_step.
  destruct (values !! idx) as [v|] eqn:E; [|done].
  destruct (truthy v) eqn:Et; [|done].
  destruct (_ && _); [done|].
  intros k s. simpl. rewrite lookup_insert_Some.
  intros [[<- <-]|[_ Hs]]; [|by apply H].
  split; [by apply field_name_is_key|]. intros _.
  split; [by apply truthy_true|].
  by apply (proj1 (Forall_lookup _ _) Hv idx).
Qed.

Lemma fields_step_entries inputs st :
  entries_ok st → entries_ok (fields_step (input_values inputs) st).
Proof.
  assert (Hv : Forall (fun v => strip v = v) (input_values inputs)).
  { apply Forall_forall. intros v Hin. unfold input_values in Hin.
    apply list_elem_of_In, in_map_iff in Hin as (inp & <- & _). apply strip_idem. }
  unfold fields_step.
  assert (Hitems : Forall (fun item : nat * string => item.2 ∈ field_names) field_map).
  { apply (bool_decide_unpack _). vm_compute. reflexivity. }
  revert st Hitems. generalize field_map as items.
  induction items as [|item items IH]; intros st Hitems H; [done|].
  apply Forall_cons in Hitems as [Hitem Hitems].
  simpl. apply IH; [done|]. by apply field_step_entries.
Qed.

Lemma site_info_reachable w dsn st : reachable w dsn st → entries_ok st.
Proof.
  apply (reachable_invariant entries_ok).
  - done.
  - apply header_step_entries.
  - apply fields_step_entries.
  - intros text st' H. unfold entries_ok.
    by destruct (risk_step_frame text st') as (-> & _).
  - intros link st' H. unfold entries_ok.
    by destruct (link_step_frame link st') as (-> & _).
  - intros k s. simpl. rewrite lookup_singleton_Some. intros [<- <-].
    split; [apply (bool_decide_unpack _); vm_compute; reflexivity|done].
Qed.

(** X8: on every path that returns, the keys of [site_info] are among
    [dsn], [activity_number] and the seventeen field names of the
    table; the function stores nothing under any other key.  The only
    calls that do not return end in an exception outside [Exception]. *)
Theorem site_info_keys_bounded (w : World) (dsn : string) :
  (∃ r si, scrape_with_browserless w dsn = Val r ∧
           field "site_info" r = Some (PDict (PStr <$> si)) ∧
           dom si ⊆ site_info_keys)
  ∨ propagates w dsn.
Proof.
  destruct (run_reachable w dsn) as (st & _ & Hreach & [(s & e & Hrun)|Hprop]);
    [left|by right].
  exists (result st s e), (site_info st).
  split; [done|]. split; [done|].
  intros k Hk. apply elem_of_dom in Hk as [v Hv].
  by apply (site_info_reachable w dsn st Hreach k v).
Qed.

(** X9: on every path that returns, every value of [site_info] other
    than the identifier is a non-empty string without leading or
    trailing whitespace: empty inputs are skipped and values are
    stripped before they are stored.  The only calls that do not return
    end in an exception outside [Exception]. *)
Theorem site_info_values_clean (w : World) (dsn : string) :
  (∃ r si, scrape_with_browserless w dsn = Val r ∧
           field "site_info" r = Some (PDict (PStr <$> si)) ∧
           ∀ k s, si !! k = Some s → k ≠ "dsn" → s ≠ "" ∧ strip s = s)
  ∨ propagates w dsn.
Proof.
  destruct (run_reachable w dsn) as (st & _ & Hreach & [(s & e & Hrun)|Hprop]);
    [left|by right].
  exists (result st s e), (site_info st).
  split; [done|]. split; [done|].
  intros k v Hv. by apply (site_info_reachable w dsn st Hreach k v).
Qed.

End site_info_invariants.

(** ** What the Result says about the page *)

Section page_facts.

Context (w : World) (dsn : string) (response : Response).
Context (Hsuccess : success_path w dsn).
Context (Hpost : requests_post w (render_request w dsn) = inr response).

Let soup : Soup := BeautifulSoup w (text response).
Let st : State := extract soup (requested w dsn).

Lemma success_result :
  scrape_with_browserless w dsn = Val (result st (summary_of st) PNone).
Proof. by apply (scrape_success w dsn response). Qed.

Lemma activity_number_absent :
  search header_re (get_text soup) = None →
  site_info st !! "activity_number" = None.
Proof.
  intros H. unfold st. rewrite extract_site_info, fields_step_other.
  - by rewrite H.
  - apply (bool_decide_unpack _). vm_compute. reflexivity.
Qed.

(** X10: on the success path, when the header pattern is found the
    page text holds, one after the other, a number of the form
    dd-dd-d..., some whitespace and a name that starts with a capital
    letter; [activity_number] is that number and [location_name] that
    name, stripped; when the pattern is not found there is no
    [activity_number]. *)
Theorem header_fields_come_from_the_text :
  ∃ r si,
    scrape_with_browserless w dsn = Val r ∧
    field "site_info" r = Some (PDict (PStr <$> si)) ∧
    match search header_re (get_text soup) with
    | Some _ =>
        ∃ pre number blank name post,
          get_text soup = pre ++ number ++ blank ++ name ++ post ∧
          activity_number_shape number ∧
          blank ≠ "" ∧ all_chars is_space blank = true ∧
          header_name_shape name ∧
          si !! "activity_number" = Some number ∧
          si !! "location_name" = Some (strip name)
    | None => si !! "activity_number" = None
    end.
Proof.
  exists (result st (summary_of st) PNone), (site_info st).
  split; [apply success_result|]. split; [done|].
  destruct (search header_re (get_text soup)) as [m|] eqn:E.
  - destruct (search_header_inv _ m E)
      as (pre & g1 & sp & g2 & post & Ht & H1 & H2 & H3 & H4 & <- & <-).
    exists pre, (group 1 m), sp, (group 2 m), post.
    split; [done|]. split; [done|]. split; [done|]. split; [done|]. split; [done|].
    split.
    + by apply extract_activity_number.
    + unfold st, requested.
      rewrite (extract_field _ _ _ 5 "location_name" eq_refl). by rewrite E.
  - by apply activity_number_absent.
Qed.

(** X11: on the success path the summary names the location and the
    status the way the page gives them: the location is the name the
    header pattern found or else the stripped sixth input, the status
    is the stripped second input, and each is "Unknown" when the page
    has none or an empty one. *)
Theorem summary_comes_from_the_page :
  let values := input_values (find_all_inputs soup) in
  let positional idx := match values !! idx with
                        | Some v => if decide (v = "") then "Unknown" else v
                        | None => "Unknown"
                        end in
  let location := match search header_re (get_text soup) with
                  | Some m => strip (group 2 m)
                  | None => positional 5%nat
                  end in
  ∃ r, scrape_with_browserless w dsn = Val r ∧
       field "summary" r
       = Some (PStr ("Site: " ++ location ++ " - Status: " ++ positional 1%nat)).
Proof.
  intros values positional location.
  exists (result st (summary_of st) PNone).
  split; [apply success_result|]. rewrite field_summary. do 2 f_equal.
  unfold summary_of, st, requested.
  rewrite (extract_field _ _ _ 5 "location_name" eq_refl).
  rewrite (extract_field _ _ _ 1 "status" eq_refl).
  fold soup values.
  assert (Hpos : ∀ idx,
            default "Unknown" match values !! idx with
                              | Some v => if truthy v then Some v else None
                              | None => None
                              end = positional idx).
  { intros idx. unfold positional. destruct (values !! idx) as [v|]; [|done].
    by destruct v. }
  unfold location.
  destruct (search header_re (get_text soup)) as [m|]; simpl; by rewrite !Hpos.
Qed.

Lemma contains_caseless text a k b kw :
  text = a ++ k ++ b → lower k = kw → contains kw (lower text) = true.
Proof.
  intros -> <-. rewrite !lower_app. apply contains_spec. by eexists _, _.
Qed.

(** X12: on the success path the keywords are looked for anywhere in
    the page text and in any letter case: a text that has "petroleum",
    "pfas" or one of the four metal names somewhere in it, in whatever
    case and also inside a longer word, gets the flag. *)
Theorem keywords_match_anywhere_in_any_case (a k b : string) :
  get_text soup = a ++ k ++ b →
  ∃ r rf,
    scrape_with_browserless w dsn = Val r ∧
    field "risk_flags" r = Some (PDict rf) ∧
    (caseless_eq k "petroleum" → rf !! "petroleum" = Some (PBool true)) ∧
    (caseless_eq k "pfas" → rf !! "pfas" = Some (PBool true)) ∧
    (∀ m, m ∈ ["arsenic"; "lead"; "mercury"; "chromium"] →
          caseless_eq k m → rf !! "heavy_metals" = Some (PBool true)).
Proof.
  intros Htext.
  exists (result st (summary_of st) PNone), (risk_flags st).
  split; [apply success_result|]. split; [done|].
  unfold st. rewrite extract_risk_flags.
  destruct (risk_step_flags (get_text soup) _
              (risk_flags_before_classifier soup dsn (render_request w dsn)))
    as (_ & H2 & H3 & H4 & _).
  split; [|split].
  - intros Hk. unfold requested. rewrite H2.
    rewrite (contains_caseless _ a k b "petroleum" Htext Hk).
    by rewrite orb_true_r.
  - intros Hk. unfold requested. rewrite H3.
    by rewrite (contains_caseless _ a k b "pfas" Htext Hk).
  - intros m Hm Hk. unfold requested. rewrite H4.
    assert (Hlow : lower m = m).
    { apply list_elem_of_In in Hm. simpl in Hm.
      by destruct Hm as [<-|[<-|[<-|[<-|[]]]]]. }
    unfold caseless_eq in Hk. rewrite Hlow in Hk.
    assert (Hex : existsb (fun m0 => contains m0 (lower (get_text soup)))
                    heavy_metal_words = true).
    { apply existsb_exists. exists m. split; [by apply list_elem_of_In|].
      by apply (contains_caseless _ a k b). }
    by rewrite Hex.
Qed.

End page_facts.

(** ** What the positional step does not look at *)

Section beyond_the_table.

Lemma field_step_take values st item :
  (item.1 < 17)%nat →
  field_step (take 17 values) st item = field_step values st item.
Proof.
  intros H. destruct item as [idx key]. unfold field_step.
  by rewrite lookup_take_lt.
Qed.

Lemma fields_step_take values st :
  fields_step (take 17 values) st = fields_step values st.
Proof.
  unfold fields_step.
  assert (Hitems : Forall (fun item : nat * string => (item.1 < 17)%nat) field_map).
  { apply (bool_decide_unpack _). vm_compute. reflexivity. }
  revert st Hitems. generalize field_map as items.
  induction items as [|item items IH]; intros st Hitems; [done|].
  apply Forall_cons in Hitems as [Hitem Hitems].
  simpl. rewrite field_step_take by done. by apply IH.
Qed.

(** X13: only the first seventeen inputs of class [form-control]
    count: two pages with the same text and the same kept anchors whose
    stripped input values agree on the first seventeen positions give
    the same Result, whatever inputs follow. *)
Theorem inputs_after_the_table_are_ignored (w1 w2 : World) (dsn : string)
    (response1 response2 : Response) :
  success_path w1 dsn →
  success_path w2 dsn →
  requests_post w1 (render_request w1 dsn) = inr response1 →
  requests_post w2 (render_request w2 dsn) = inr response2 →
  let soup1 := BeautifulSoup w1 (text response1) in
  let soup2 := BeautifulSoup w2 (text response2) in
  get_text soup1 = get_text soup2 →
  find_all_links soup1 = find_all_links soup2 →
  take 17 (input_values (find_all_inputs soup1))
  = take 17 (input_values (find_all_inputs soup2)) →
  scrape_with_browserless w1 dsn = scrape_with_browserless w2 dsn.
Proof.
  intros Hs1 Hs2 Hp1 Hp2 soup1 soup2 Ht Hl Hv.
  rewrite (scrape_success w1 dsn response1 Hs1 Hp1).
  rewrite (scrape_success w2 dsn response2 Hs2 Hp2).
  fold soup1 soup2. rewrite !extract_log, !result_log.
  assert (He : extract soup1 (initial dsn) = extract soup2 (initial dsn)).
  { unfold extract. rewrite Ht, Hl.
    rewrite <- (fields_step_take (input_values (find_all_inputs soup1))).
    rewrite <- (fields_step_take (input_values (find_all_inputs soup2))).
    by rewrite Hv. }
  by rewrite He.
Qed.

Lemma inputs_after_the_table_are_ignored_witness :
  scrape_with_browserless sample_world "271147"
  = scrape_with_browserless longer_world "271147".
Proof.
  apply (inputs_after_the_table_are_ignored sample_world longer_world "271147"
           {| status_code := 200; text := "<html></html>" |}
           {| status_code := 200; text := "<html></html>" |}).
  - on_success_path.
  - on_success_path.
  - reflexivity.
  - reflexivity.
  - reflexivity.
  - vm_compute. reflexivity.
  - vm_compute. reflexivity.
Defined.

(** X14: a 200 response is a success whatever is on the page: when the
    page has no header, no input of class [form-control], no keyword
    and no kept anchor, the Result has [error] [None], the summary
    "Site: Unknown - Status: Unknown" and the containers of lines
    23-25, the same containers a failure before parsing hands back. *)
Theorem blank_page_is_a_success (w : World) (dsn : string) (response : Response) :
  success_path w dsn →
  requests_post w (render_request w dsn) = inr response →
  let soup := BeautifulSoup w (text response) in
  search header_re (get_text soup) = None →
  find_all_inputs soup = [] →
  find_all_links soup = [] →
  contains "petroleum" (lower (get_text soup)) = false →
  contains "pfas" (lower (get_text soup)) = false →
  existsb (fun m => contains m (lower (get_text soup))) heavy_metal_words = false →
  ∃ r, scrape_with_browserless w dsn = Val r ∧
       field "error" r = Some PNone ∧
       field "summary" r = Some (PStr "Site: Unknown - Status: Unknown") ∧
       sentinel dsn r.
Proof.
  intros Hs Hp soup Hh Hi Hl H1 H2 H3.
  eexists. split; [by apply (scrape_success w dsn response)|].
  fold soup. rewrite extract_log.
  assert (He : extract soup (initial dsn) = initial dsn).
  { unfold extract. rewrite Hh, Hi, Hl. simpl.
    unfold risk_step. cbn zeta. simpl. rewrite H1, H2.
    unfold heavy_metal_words in H3. simpl in H3. rewrite H3.
    unfold set_risk_flag, initial. simpl. by f_equal. }
  rewrite He. split; [done|]. split; [done|]. by apply initial_sentinel.
Qed.

Lemma blank_page_is_a_success_witness :
  ∃ r, scrape_with_browserless empty_world "271147" = Val r ∧
       field "error" r = Some PNone ∧
       field "summary" r = Some (PStr "Site: Unknown - Status: Unknown") ∧
       sentinel "271147" r.
Proof.
  apply (blank_page_is_a_success empty_world "271147"
           {| status_code := 200; text := "<html></html>" |}).
  - on_success_path.
  - reflexivity.
  - reflexivity.
  - reflexivity.
  - reflexivity.
  - reflexivity.
  - reflexivity.
  - reflexivity.
Defined.

End beyond_the_table.

(** ** The further properties on the sample pages *)

Section further_witnesses.

Lemma documents_are_a_prefix_witness :
  ∃ r docs n,
    scrape_with_browserless half_collected_world "271147" = Val r ∧
    field "documents" r = Some (PList (py_of_document <$> docs)) ∧
    docs = take n (all_documents sample_page) ∧
    (field "error" r = Some PNone → docs = all_documents sample_page).
Proof.
  destruct (documents_are_a_prefix half_collected_world "271147"
              {| status_code := 200; text := "<html></html>" |})
    as [H|(name & H & _)].
  - has_key.
  - reflexivity.
  - exact H.
  - vm_compute in H. discriminate H.
Defined.

Lemma header_fields_come_from_the_text_witness :
  ∃ r si,
    scrape_with_browserless sample_world "271147" = Val r ∧
    field "site_info" r = Some (PDict (PStr <$> si)) ∧
    ∃ pre number blank name post,
      get_text sample_page = pre ++ number ++ blank ++ name ++ post ∧
      activity_number_shape number ∧
      blank ≠ "" ∧ all_chars is_space blank = true ∧
      header_name_shape name ∧
      si !! "activity_number" = Some number ∧
      si !! "location_name" = Some (strip name).
Proof.
  assert (Hs : success_path sample_world "271147") by on_success_path.
  exact (header_fields_come_from_the_text sample_world "271147"
           {| status_code := 200; text := "<html></html>" |} Hs eq_refl).
Defined.

Lemma summary_comes_from_the_page_witness :
  ∃ r, scrape_with_browserless sample_world "271147" = Val r ∧
       field "summary" r = Some (PStr "Site: EXAMPLE SITE NAME - Status: OPEN").
Proof.
  assert (Hs : success_path sample_world "271147") by on_success_path.
  exact (summary_comes_from_the_page sample_world "271147"
           {| status_code := 200; text := "<html></html>" |} Hs eq_refl).
Defined.

End further_witnesses.

Section request_facts.

Lemma keywords_match_anywhere_in_any_case_witness :
  ∃ r rf,
    scrape_with_browserless metal_world "271147" = Val r ∧
    field "risk_flags" r = Some (PDict rf) ∧
    rf !! "heavy_metals" = Some (PBool true).
Proof.
  assert (Hs : success_path metal_world "271147") by on_success_path.
  destruct (keywords_match_anywhere_in_any_case metal_world "271147"
              {| status_code := 200; text := "<html></html>" |} Hs eq_refl
              "" "Lead" " contamination detected" eq_refl)
    as (r & rf & Hr & Hrf & _ & _ & Hm).
  exists r, rf. split; [exact Hr|]. split; [exact Hrf|].
  apply (Hm "lead").
  - apply list_elem_of_In. simpl. tauto.
  - reflexivity.
Defined.

(** X15: every request the function sends goes to the rendering
    endpoint with the credential in the query string, asks for the
    detail page of the identifier as it was passed in, waits 5000 ms,
    and carries a [Content-Type] header only: the [Authorization]
    header built at lines 46-49 is never sent. *)
Theorem request_as_sent (w : World) (dsn : string) (rq : Request) :
  rq ∈ requests_sent w dsn →
  req_url rq
  = "https://chrome.browserless.io/content?token=" ++ BROWSERLESS_API_KEY w ∧
  field "url" (req_json rq)
  = Some (PStr ("https://apps.dnr.wi.gov/rrbotw/botw-activity-detail?dsn=" ++ dsn)) ∧
  field "waitFor" (req_json rq) = Some (PInt 5000) ∧
  dom (req_headers rq) = {["Content-Type"]} ∧
  req_headers rq !! "Authorization" = None ∧
  BROWSERLESS_API_KEY w ≠ "".
Proof.
  intros Hin.
  destruct (network_use_cases w dsn) as [[_ Hs]|[Hk Hs]]; rewrite Hs in Hin.
  - by apply elem_of_nil in Hin.
  - apply list_elem_of_singleton in Hin as ->.
    split; [done|]. split; [done|]. split; [done|].
    split; [apply dom_singleton_L|]. split; done.
Qed.

Lemma request_as_sent_witness :
  req_url (render_request sample_world "271147")
  = "https://chrome.browserless.io/content?token=token" ∧
  req_headers (render_request sample_world "271147") !! "Authorization" = None.
Proof.
  destruct (request_as_sent sample_world "271147" (render_request sample_world "271147"))
    as (H1 & _ & _ & _ & H2 & _).
  - apply list_elem_of_singleton. reflexivity.
  - split; [exact H1|exact H2].
Defined.

End request_facts.

(** ** Which [docSeqNo] parameter names a document *)

Section sequence_facts.

Lemma string_app_inj a a' b b' :
  String.length a = String.length a' → a ++ b = a' ++ b' → a = a' ∧ b = b'.
Proof.
  revert a'. induction a as [|c a IH]; intros [|c' a'] Hlen; try done.
  change (String c a ++ b) with (String c (a ++ b)).
  change (String c' a' ++ b') with (String c' (a' ++ b')).
  intros [= -> H]. simpl in Hlen.
  destruct (IH a') as [-> ->]; [lia|done|done].
Qed.

(** [re.search] stops at the first place where [docSeqNo=] has a digit
    after it. *)
Lemma search_seq_re_first s m :
  search seq_re s = Some m →
  ∃ pre d t,
    s = pre ++ "docSeqNo=" ++ String d t ∧ is_digit d = true ∧
    group 1 m = String d (take_while is_digit t) ∧
    ∀ pre' d' t', s = pre' ++ "docSeqNo=" ++ String d' t' → is_digit d' = true →
                  (String.length pre <= String.length pre')%nat.
Proof.
  induction s as [|c s IH]; rewrite search_unfold.
  - by vm_compute.
  - destruct (rmatch seq_re 0 (String c s) [] accept) as [m'|] eqn:E.
    + intros [= <-]. destruct (rmatch_seq_re_inv _ _ E) as (d & t & Hs & Hd).
      exists "", d, t. split; [done|]. split; [done|].
      rewrite Hs, rmatch_seq_re_hit in E by done. injection E as <-.
      split; [done|]. intros pre' d' t' _ _. simpl. lia.
    + intros H. destruct (IH H) as (pre & d & t & -> & Hd & Hg & Hmin).
      exists (String c pre), d, t. split; [done|]. split; [done|]. split; [done|].
      intros [|c' pre'] d' t' Heq Hd'.
      * change ("" ++ ?x) with x in Heq. rewrite Heq in E.
        by rewrite rmatch_seq_re_hit in E.
      * change (String c pre ++ ?x) with (String c (pre ++ x)) in Heq.
        change (String c' pre' ++ ?x) with (String c' (pre' ++ x)) in Heq.
        injection Heq as _ Heq. simpl.
        specialize (Hmin pre' d' t' Heq Hd'). lia.
Qed.

(** X16: when a link has several [docSeqNo=] parameters, the first one
    that is followed by a digit names the document, with all the digits
    that follow it there; later ones and the running count are not
    looked at. *)
Theorem sequence_id_takes_first_parameter (count : nat) (pre : string) (d : ascii)
    (t : string) :
  is_digit d = true →
  (∀ pre' d' t',
     pre ++ "docSeqNo=" ++ String d t = pre' ++ "docSeqNo=" ++ String d' t' →
     is_digit d' = true → (String.length pre <= String.length pre')%nat) →
  sequence_id count (pre ++ "docSeqNo=" ++ String d t)
  = String d (take_while is_digit t) ∧
  name (site_file count (pre ++ "docSeqNo=" ++ String d t))
  = "Site File Documentation (ID: " ++ String d (take_while is_digit t) ++ ")".
Proof.
  intros Hd Hfirst.
  assert (Hid : sequence_id count (pre ++ "docSeqNo=" ++ String d t)
                = String d (take_while is_digit t)).
  { unfold sequence_id.
    destruct (search seq_re (pre ++ "docSeqNo=" ++ String d t)) as [m|] eqn:E.
    - destruct (search_seq_re_first _ m E) as (pre0 & d0 & t0 & Heq & Hd0 & Hg & Hmin).
      assert (Hlen : String.length pre0 = String.length pre).
      { specialize (Hmin pre d t eq_refl Hd).
        specialize (Hfirst pre0 d0 t0 Heq Hd0). lia. }
      symmetry in Heq. apply string_app_inj in Heq as [_ Heq]; [|done].
      apply (string_app_inj "docSeqNo=" "docSeqNo=") in Heq as [_ Heq]; [|done].
      injection Heq as -> ->. done.
    - by rewrite (search_seq_re_None _ E pre d t eq_refl) in Hd. }
  split; [done|]. unfold site_file. cbn [name]. by rewrite Hid.
Qed.

Lemma sequence_id_takes_first_parameter_witness :
  sequence_id 3 ("/doc?" ++ "docSeqNo=" ++ String "1" "2&docSeqNo=99") = "12" ∧
  name (site_file 3 ("/doc?" ++ "docSeqNo=" ++ String "1" "2&docSeqNo=99"))
  = "Site File Documentation (ID: 12)".
Proof.
  apply (sequence_id_takes_first_parameter 3 "/doc?" "1" "2&docSeqNo=99").
  - reflexivity.
  - intros pre' d' t' Heq _.
    destruct pre' as [|c1 [|c2 [|c3 [|c4 [|c5 pre']]]]]; simpl; try lia;
      discriminate Heq.
Defined.

End sequence_facts.
